(** * flipper-pkg [bundle] command: a shallow embedding and its properties

    The development follows [desktop/pkg/src/commands/bundle.ts].  The
    command is a straight line of calls into the operating system and into
    external tools, so the embedding has three layers:

    - [Path]: the POSIX flavour of Node's [path] module, which the command
      uses to build every path it hands to a tool;
    - [Js]: the handful of JavaScript value operations the command applies
      to manifest fields ([||], [??], template literals);
    - [Bundle]: the command itself, written in a state-and-error monad over
      an abstract environment (file system, operator, yarn, compiler), with
      a trace of the calls it makes.

    [Demo] is a small concrete environment to run the command in.  The
    definitions come first; the facts follow, about strings ([StrFacts]),
    paths ([PathFacts]) and the command ([BundleFacts]), and last the
    statements about the behaviour of the command. *)

From Stdlib Require Import Strings.String Strings.Ascii Lists.List Bool.Bool.
Import ListNotations.

Local Open Scope list_scope.
Local Open Scope string_scope.

(** ** Strings *)

Module Str.

(** [s.slice(-1)]: the last character as a string, empty for [""]. *)
Fixpoint slice_last (s : string) : string :=
  match s with
  | "" => ""
  | String c "" => String c ""
  | String _ s' => slice_last s'
  end.

Definition is_empty (s : string) : bool :=
  match s with "" => true | _ => false end.

Fixpoint slashfree (s : string) : bool :=
  match s with
  | "" => true
  | String c s' => negb (Ascii.eqb c "/") && slashfree s'
  end.

Fixpoint dropWhile {A} (f : A -> bool) (l : list A) : list A :=
  match l with
  | [] => []
  | x :: l' => if f x then dropWhile f l' else l
  end.

Fixpoint takeWhile {A} (f : A -> bool) (l : list A) : list A :=
  match l with
  | [] => []
  | x :: l' => if f x then x :: takeWhile f l' else []
  end.

End Str.

(** ** Node's [path] module, POSIX flavour

    [bundle.ts] imports [path] from the Node runtime; the definitions below
    follow the behaviour of [path.posix].  A path is cut at ['/'] into
    segments; [normalizeString] is the segment-by-segment stack discipline
    of the runtime (empty and ["."] segments vanish, [".."] pops a name or,
    for relative paths, piles up in front). *)

Module Path.

Definition isSep (c : ascii) : bool := Ascii.eqb c "/".

Definition isAbsolute (path : string) : bool :=
  match path with
  | String c _ => isSep c
  | "" => false
  end.

Definition trailingSeparator (path : string) : bool :=
  Str.slice_last path =? "/".

(** [path.split('/')]. *)
Fixpoint split (path : string) : list string :=
  match path with
  | "" => [""]
  | String c rest =>
      if isSep c then "" :: split rest
      else match split rest with
           | seg :: segs => String c seg :: segs
           | [] => [String c ""]
           end
  end.

(** One separator seen by [normalizeString]: [res] is the result so far,
    most recent segment first; [seg] is the text since the last
    separator. *)
Definition step (allowAboveRoot : bool) (res : list string) (seg : string)
  : list string :=
  if seg =? "" then res
  else if seg =? "." then res
  else if seg =? ".." then
    match res with
    | top :: below =>
        if top =? ".." then (if allowAboveRoot then ".." :: res else res)
        else below
    | [] => if allowAboveRoot then [".."] else []
    end
  else seg :: res.

(** The segments [step] keeps as they are. *)
Definition is_name (seg : string) : bool :=
  negb (seg =? "") && negb (seg =? ".") && negb (seg =? "..").

Definition segments (allowAboveRoot : bool) (path : string) : list string :=
  rev (fold_left (step allowAboveRoot) (split path) []).

Definition normalizeString (path : string) (allowAboveRoot : bool) : string :=
  String.concat "/" (segments allowAboveRoot path).

Definition normalize (path : string) : string :=
  if Str.is_empty path then "."
  else
    let isAbs := isAbsolute path in
    let trailing := trailingSeparator path in
    let path' := normalizeString path (negb isAbs) in
    if Str.is_empty path' then
      (if isAbs then "/" else if trailing then "./" else ".")
    else
      let path'' := if trailing then path' ++ "/" else path' in
      if isAbs then "/" ++ path'' else path''.

(** The accumulation loop of [path.join]: empty arguments are skipped. *)
Definition joined (args : list string) : option string :=
  fold_left
    (fun acc arg =>
       if Str.is_empty arg then acc
       else match acc with
            | None => Some arg
            | Some j => Some (j ++ "/" ++ arg)
            end)
    args None.

Definition join (args : list string) : string :=
  match joined args with
  | None => "."
  | Some j => normalize j
  end.

(** The loop of [path.resolve]: [paths] are visited in the order given
    (the last argument first, the working directory last) until an
    absolute one has been prepended. *)
Fixpoint gather (paths : list string) (resolvedPath : string)
  : string * bool :=
  match paths with
  | [] => (resolvedPath, false)
  | p :: rest =>
      if Str.is_empty p then gather rest resolvedPath
      else
        let resolvedPath' := p ++ "/" ++ resolvedPath in
        if isAbsolute p then (resolvedPath', true)
        else gather rest resolvedPath'
  end.

Definition resolve (cwd : string) (args : list string) : string :=
  let '(resolvedPath, resolvedAbsolute) := gather (rev args ++ [cwd]) "" in
  let resolvedPath := normalizeString resolvedPath (negb resolvedAbsolute) in
  if resolvedAbsolute then "/" ++ resolvedPath
  else if Str.is_empty resolvedPath then "." else resolvedPath.

(** [path.dirname]: scanning from the end, trailing separators are
    skipped, then the name, and the first separator met after that (at an
    index of at least 1) ends the directory part. *)
Definition dirname (path : string) : string :=
  match path with
  | "" => "."
  | String c rest =>
      let hasRoot := isSep c in
      let scan :=
        Str.dropWhile (fun a => negb (isSep a))
          (Str.dropWhile isSep (rev (list_ascii_of_string rest))) in
      match scan with
      | [] => if hasRoot then "/" else "."
      | _ :: before =>
          if hasRoot && Str.is_empty (string_of_list_ascii before) then "//"
          else String c (string_of_list_ascii (rev before))
      end
  end.

(** [path.basename] without a suffix: the last run of non-separators. *)
Definition basename (path : string) : string :=
  string_of_list_ascii
    (rev (Str.takeWhile (fun a => negb (isSep a))
            (Str.dropWhile isSep (rev (list_ascii_of_string path))))).

(** [R/f], with the root written once. *)
Definition child (R f : string) : string :=
  if R =? "/" then "/" ++ f else R ++ "/" ++ f.

(** Not a separator. *)
Definition notSep (a : ascii) : bool := negb (isSep a).

(** Shapes of segment lists: free of separators; names only; names or
    [".."], as in a relative normal form. *)
Definition slashfree_all (l : list string) : Prop :=
  Forall (fun s => Str.slashfree s = true) l.

Definition names (l : list string) : Prop :=
  Forall (fun s => is_name s = true) l.

Definition names_or_up (l : list string) : Prop :=
  Forall (fun s => is_name s = true \/ s = "..") l.

End Path.

(** ** JavaScript values met in the manifest

    A manifest field is a string when present (the data model of the
    manifest); [null] is kept apart from an absent field because a template
    literal prints the two differently.  Fields holding other JSON values
    (numbers, booleans, arrays, objects) are not modelled: with such a
    [bundleMain] the runtime's [path.resolve] throws a [TypeError], which
    no manifest of this model brings about. *)

Module Js.

Inductive value : Type :=
| Undefined
| Null
| Str (s : string).

Definition truthy (v : value) : bool :=
  match v with
  | Str s => negb (Str.is_empty s)
  | _ => false
  end.

(** [a || b] *)
Definition or (a b : value) : value := if truthy a then a else b.

(** [a ?? b], for a right operand without effects *)
Definition coalesce (a b : value) : value :=
  match a with
  | Undefined | Null => b
  | _ => a
  end.

(** A value inside a template literal. *)
Definition toString (v : value) : string :=
  match v with
  | Undefined => "undefined"
  | Null => "null"
  | Str s => s
  end.

End Js.

(** ** The command *)

Module Bundle.

(** What the command can be stopped by. *)
Inductive Exn : Type :=
| CLIError (message : string)   (* raised by [this.error] *)
| TypeError (message : string)  (* a non-string handed to [path] *)
| Rejected (reason : string).   (* raised by a call into the environment *)

(** The manifest, [package.json], as far as the command reads it. *)
Record PackageJson : Type := {
  name : Js.value;
  version : Js.value;
  main : Js.value;
  bundleMain : Js.value
}.

Record Stats : Type := { isDirectory : bool }.

Record Args : Type := { directory : string }.
Record Flags : Type := { output : string }.

(** Calls that leave the command. *)
Inductive Call : Type :=
| Lstat (path : string)
| PathExists (path : string)
| ReadJSON (file : string)
| Prompt (message : string) (default : bool)
| Mkdirp (dir : string)
| Log (message : string)
| ActionStart (action : string)
| ActionStop (message : option string)
| YarnInstall (dir : string)
| EnsureDir (dir : string)
| RunBuild (inputDirectory : string) (entry : Js.value) (out : string)
| YarnPack (dir : string) (outputFile : string).

(** One entry of the trace of a run.  [Completed c r]: the command made
    the call and went on only once it had finished, [r] being the
    exception it raised, if any.  [Detached c r]: the command made the
    call and dropped the promise; [r] is how that promise settles in the
    end, which the command never learns.  The trace gives the order in
    which the command makes its calls; it does not say when a detached
    call takes effect. *)
Inductive Step : Type :=
| Completed (c : Call) (failure : option Exn)
| Detached (c : Call) (settles : option Exn).

(** The world outside the command.  Looking at the file system or asking
    the operator leaves the world as it is; the tools change it, and
    return the exception they raise, if any.  [yarn.install], [yarn.pack]
    (from [../utils/yarn]) and [runBuild] (from [flipper-pkg-lib]) are
    taken as they come. *)
Record Env : Type := {
  World : Type;
  cwd : string;
  lstat : World -> string -> Exn + Stats;
  pathExists : World -> string -> bool;
  readJSON : World -> string -> Exn + PackageJson;
  prompt : World -> string -> bool -> Exn + bool;
  mkdirp : string -> World -> option Exn * World;
  yarn_install : string -> World -> option Exn * World;
  ensureDir : string -> World -> option Exn * World;
  runBuild : string -> Js.value -> string -> World -> option Exn * World;
  yarn_pack : string -> string -> World -> option Exn * World
}.

(** The stages of the pipeline that run an external tool. *)
Definition is_stage (c : Call) : bool :=
  match c with
  | YarnInstall _ | RunBuild _ _ _ | YarnPack _ _ => true
  | _ => false
  end.

Definition call_of (s : Step) : Call :=
  match s with
  | Completed c _ => c
  | Detached c _ => c
  end.

Definition failure_of (s : Step) : option Exn :=
  match s with
  | Completed _ r => r
  | Detached _ _ => None
  end.

Section Monad.

Context {E : Env}.

(** Outcome, world left behind, calls made. *)
Definition Result (A : Type) : Type := ((Exn + A) * World E * list Step)%type.

Definition M (A : Type) : Type := World E -> Result A.

Definition outcome {A} (r : Result A) : Exn + A := fst (fst r).
Definition world_of {A} (r : Result A) : World E := snd (fst r).
Definition trace {A} (r : Result A) : list Step := snd r.

(** The same result after the calls [t]. *)
Definition prepend {A} (t : list Step) (r : Result A) : Result A :=
  (outcome r, world_of r, (t ++ trace r)%list).

Definition ret {A} (a : A) : M A := fun w => (inr a, w, []).

Definition throw {A} (e : Exn) : M A := fun w => (inl e, w, []).

Definition bind {A B} (m : M A) (k : A -> M B) : M B :=
  fun w =>
    match m w with
    | (inl e, w1, t1) => (inl e, w1, t1)
    | (inr a, w1, t1) => prepend t1 (k a w1)
    end.

(** A call that only looks. *)
Definition observe {A} (c : Call) (f : World E -> Exn + A) : M A :=
  fun w =>
    match f w with
    | inl e => (inl e, w, [Completed c (Some e)])
    | inr a => (inr a, w, [Completed c None])
    end.

(** [await tool(...)] *)
Definition await (c : Call) (f : World E -> option Exn * World E) : M unit :=
  fun w =>
    match f w with
    | (Some e, w') => (inl e, w', [Completed c (Some e)])
    | (None, w') => (inr tt, w', [Completed c None])
    end.

(** [tool(...)] as a statement of its own: the promise is dropped.  The
    command goes on whatever the promise settles to.  The effect of the
    call is put on the world at once; in the runtime the call proceeds
    while the command goes on, and a rejection that nobody handles is
    dealt with by the runtime (a warning, or the end of the process):
    neither the timing nor that policy is modelled. *)
Definition detach (c : Call) (f : World E -> option Exn * World E) : M unit :=
  fun w => (inr tt, snd (f w), [Detached c (fst (f w))]).

(** Output to the terminal. *)
Definition say (c : Call) : M unit :=
  fun w => (inr tt, w, [Completed c None]).

(** [this.error(message)] *)
Definition error {A} (message : string) : M A := throw (CLIError message).

(** [a ?? b] where [b] awaits. *)
Definition coalesceM (a : Js.value) (b : M Js.value) : M Js.value :=
  match a with
  | Js.Undefined | Js.Null => b
  | _ => ret a
  end.

(** [validateString] of the [path] module. *)
Definition validateString (v : Js.value) : M string :=
  match v with
  | Js.Str s => ret s
  | _ => throw (TypeError "The 'path' argument must be of type string")
  end.

End Monad.

Arguments M : clear implicits.
Arguments Result : clear implicits.

Declare Scope bundle_scope.
Delimit Scope bundle_scope with bundle.

Notation "x <- m ;; k" := (bind m (fun x => k))
  (at level 100, m at next level, right associativity) : bundle_scope.
Notation "' p <- m ;; k" := (bind m (fun x => let p := x in k))
  (at level 100, p pattern, m at next level, right associativity) : bundle_scope.
Notation "m ;;; k" := (bind m (fun _ => k))
  (at level 100, right associativity) : bundle_scope.

Local Open Scope bundle_scope.

Section Program.

Context {E : Env}.

(** Line 21: the name of the archive. *)
Definition derivedName (packageJson : PackageJson) : string :=
  Js.toString (Js.or (name packageJson) (Js.Str ""))
  ++ "-" ++ Js.toString (version packageJson) ++ ".tgz".

(** Lines 20 and 105: where the manifest is. *)
Definition packageFile (inputDirectory : string) : string :=
  Path.join [inputDirectory; "package.json"].

(** Lines 19-22. *)
Definition deriveOutputFileName (inputDirectory : string) : M E string :=
  let file := packageFile inputDirectory in
  packageJson <- observe (ReadJSON file) (fun w => readJSON E w file) ;;
  ret (derivedName packageJson).

(** Lines 63-71: [dir] and [file] for a target that does not exist;
    no [file] stands for [null]. *)
Definition splitTarget (target : string) : string * option string :=
  if Str.slice_last target =? "/" then (target, None)
  else (Path.dirname target, Some (Path.basename target)).

(** Line 76: the question put to the operator. *)
Definition question (dir : string) : string :=
  "Output directory '" ++ dir ++ "' doesn't exist. Create it?".

(** Lines 73-86: the directory is missing. *)
Definition confirmDir (dir : string) : M E unit :=
  let message := question dir in
  confirm <- observe (Prompt message true) (fun w => prompt E w message true) ;;
  if confirm : bool then detach (Mkdirp dir) (mkdirp E dir)
  else error ("Output directory " ++ dir ++ " not found.").

(** Lines 88-91. *)
Definition finishOutput (args : Args) (dir : string) (file : option string)
  : M E string :=
  file <- match file with
          | None => deriveOutputFileName (directory args)
          | Some f => ret f
          end ;;
  ret (Path.join [dir; file]).

(** Lines 49-92: the value of [output]. *)
Definition resolveOutput (args : Args) (parsedFlags : Flags) : M E string :=
  let target := output parsedFlags in
  found <- observe (PathExists target) (fun w => inr (pathExists E w target)) ;;
  if found : bool then
    outputStat <- observe (Lstat target) (fun w => lstat E w target) ;;
    if isDirectory outputStat then
      derived <- deriveOutputFileName (directory args) ;;
      ret (Path.resolve (cwd E) [Path.join [target; derived]])
    else
      ret target
  else
    let '(dir, file) := splitTarget target in
    dirFound <- observe (PathExists dir) (fun w => inr (pathExists E w dir)) ;;
    (if negb dirFound then confirmDir dir else ret tt) ;;;
    finishOutput args dir file.

(** Lines 97 and 125: what is logged around the pipeline. *)
Definition bundling (inputDirectory outputFile : string) : string :=
  "⚙️  Bundling " ++ inputDirectory ++ " to " ++ outputFile ++ "...".

Definition bundled (inputDirectory outputFile : string) : string :=
  "✅  Bundled " ++ inputDirectory ++ " to " ++ outputFile.

(** Lines 99-101. *)
Definition install (inputDirectory : string) : M E unit :=
  say (ActionStart "Installing dependencies") ;;;
  await (YarnInstall inputDirectory) (yarn_install E inputDirectory) ;;;
  say (ActionStop None).

(** Lines 103-114: [entry] and [out]. *)
Definition readManifest (inputDirectory : string) : M E (Js.value * string) :=
  say (ActionStart "Reading package.json") ;;;
  let file := packageFile inputDirectory in
  packageJson <- observe (ReadJSON file) (fun w => readJSON E w file) ;;
  entry <- coalesceM (main packageJson)
             (let tsx := Path.join [inputDirectory; "index.tsx"] in
              found <- observe (PathExists tsx)
                         (fun w => inr (pathExists E w tsx)) ;;
              ret (Js.Str (if found : bool then "index.tsx" else "index.jsx"))) ;;
  let bundleMain :=
    Js.coalesce (bundleMain packageJson)
      (Js.Str (Path.join ["dist"; "index.js"])) in
  bundleMain' <- validateString bundleMain ;;
  let out := Path.resolve (cwd E) [inputDirectory; bundleMain'] in
  say (ActionStop (Some ("done. Entry: " ++ Js.toString entry
                         ++ ". Bundle main: " ++ Js.toString bundleMain ++ "."))) ;;;
  ret (entry, out).

(** Lines 116-119. *)
Definition compile (inputDirectory : string) (entry : Js.value) (out : string)
  : M E unit :=
  say (ActionStart "Compiling") ;;;
  await (EnsureDir (Path.dirname out)) (ensureDir E (Path.dirname out)) ;;;
  await (RunBuild inputDirectory entry out) (runBuild E inputDirectory entry out) ;;;
  say (ActionStop None).

(** Lines 121-123. *)
Definition pack (inputDirectory outputFile : string) : M E unit :=
  say (ActionStart ("Packing to " ++ outputFile)) ;;;
  await (YarnPack inputDirectory outputFile)
    (yarn_pack E inputDirectory outputFile) ;;;
  say (ActionStop None).

(** Lines 97-125: the stages, in the order of the [cli.action] brackets. *)
Definition pipeline (inputDirectory outputFile : string) : M E unit :=
  say (Log (bundling inputDirectory outputFile)) ;;;
  install inputDirectory ;;;
  ' (entry, out) <- readManifest inputDirectory ;;
  compile inputDirectory entry out ;;;
  pack inputDirectory outputFile ;;;
  say (Log (bundled inputDirectory outputFile)).

(** Lines 41-126. *)
Definition run (args : Args) (parsedFlags : Flags) : M E unit :=
  stat <- observe (Lstat (directory args)) (fun w => lstat E w (directory args)) ;;
  (if negb (isDirectory stat) then
     error ("Plugin source " ++ directory args ++ " is not a directory.")
   else ret tt) ;;;
  output <- resolveOutput args parsedFlags ;;
  let inputDirectory := Path.resolve (cwd E) [directory args] in
  let outputFile := Path.resolve (cwd E) [output] in
  pipeline inputDirectory outputFile.

(** Lines 30-37: the flags of a call without [--output]. *)
Definition defaultFlags : Flags := {| output := "." |}.

End Program.

(** *** What is said about a run *)

Section Traces.

Context {E : Env}.

(** No stage of the pipeline (install, compile, pack) among the calls. *)
Definition no_stage (t : list Step) : Prop :=
  forall s, In s t -> is_stage (call_of s) = false.

(** No call has failed. *)
Definition quiet (t : list Step) : Prop :=
  Forall (fun s => failure_of s = None) t.

(** The outcome tells of the trace: after a success no call has failed;
    an exception either was raised by the command itself, or is the one
    raised by the last call, the only call that failed. *)
Definition faithful {A} (r : Result E A) : Prop :=
  match outcome r with
  | inr _ => quiet (trace r)
  | inl e =>
      quiet (trace r)
      \/ exists pre c, trace r = (pre ++ [Completed c (Some e)])%list /\ quiet pre
  end.

(** What must have come before a call of the compiler, and what it is
    called with: [seen] holds the earlier steps, the latest first. *)
Definition build_prepared (seen : list Step) (s : Step) : Prop :=
  match s with
  | Completed (RunBuild d entry o) _ =>
      In (Completed (YarnInstall d) None) seen
      /\ (exists rest, seen = Completed (EnsureDir (Path.dirname o)) None :: rest)
      /\ (exists file, entry = Js.Str file)
  | _ => True
  end.

(** Every call of the compiler in [t] is prepared by the steps before
    it, those of [seen] included. *)
Fixpoint ordered (seen : list Step) (t : list Step) : Prop :=
  match t with
  | [] => True
  | s :: t' => build_prepared seen s /\ ordered (s :: seen) t'
  end.

(** The same of a computation, whatever the world. *)
Definition Faithful {A} (m : M E A) : Prop := forall w, faithful (m w).

(** Line 112, with the default path worked out. *)
Definition chosenBundleMain (m : PackageJson) : string :=
  match bundleMain m with
  | Js.Str s => s
  | _ => "dist/index.js"
  end.

(** Line 114: what is reported once the manifest is read. *)
Definition manifestRead (entry : string) (m : PackageJson) : string :=
  "done. Entry: " ++ entry ++ ". Bundle main: " ++ chosenBundleMain m ++ ".".

(** The two calls are of the same stage. *)
Definition same_stage (c1 c2 : Call) : bool :=
  match c1, c2 with
  | YarnInstall _, YarnInstall _ => true
  | RunBuild _ _ _, RunBuild _ _ _ => true
  | YarnPack _ _, YarnPack _ _ => true
  | _, _ => false
  end.

(** The directory a stage works on. *)
Definition stage_dir (c : Call) : option string :=
  match c with
  | YarnInstall d | RunBuild d _ _ | YarnPack d _ => Some d
  | _ => None
  end.

(** The stage of [c] has not been started in [seen]. *)
Definition fresh (c : Call) (seen : list Step) : bool :=
  forallb (fun x => negb (same_stage (call_of x) c)) seen.

(** The packing call, completed without failure. *)
Definition pack_ok (s : Step) : bool :=
  match s with
  | Completed (YarnPack _ _) None => true
  | _ => false
  end.

Definition succeeded {A} (r : Result E A) : bool :=
  match outcome r with
  | inr _ => true
  | inl _ => false
  end.

(** Every step of [t] satisfies [P] with respect to the steps before it,
    those of [seen] included, the latest first. *)
Fixpoint each (P : list Step -> Step -> Prop) (seen t : list Step) : Prop :=
  match t with
  | [] => True
  | s :: t' => P seen s /\ each P (s :: seen) t'
  end.

(** A step of the pipeline for the directory [d] and the archive [o]:
    stages work on [d], none is started twice, packing goes to [o] and
    comes after a successful compilation; nothing is asked, created or
    left unawaited. *)
Definition staged (d o : string) (seen : list Step) (s : Step) : Prop :=
  match s with
  | Detached _ _ => False
  | Completed c _ =>
      match c with
      | Lstat _ | Prompt _ _ | Mkdirp _ => False
      | YarnInstall d' => d' = d /\ fresh c seen = true
      | RunBuild d' _ _ => d' = d /\ fresh c seen = true
      | YarnPack d' o' =>
          d' = d /\ o' = o /\ fresh c seen = true
          /\ exists entry out, In (Completed (RunBuild d entry out) None) seen
      | _ => True
      end
  end.

(** A result of the pipeline: its steps are [staged], and it succeeds
    exactly when the packing call has completed. *)
Definition staged_result (d o : string) {A} (r : Result E A) : Prop :=
  each (staged d o) [] (trace r)
  /\ succeeded r = existsb pack_ok (trace r).

(** A step on the way to [output] from the world [w], which the looks
    and the question leave as it is: [mkdirp] is only called detached,
    for a directory missing in [w], right after the operator was asked
    about that directory and has answered yes; the question comes right
    after the directory was looked for, with yes as the default; no
    stage is started. *)
Definition prompted (w : World E) (seen : list Step) (s : Step) : Prop :=
  match s with
  | Detached (Mkdirp dir) _ =>
      (exists rest, seen = Completed (Prompt (question dir) true) None :: rest)
      /\ pathExists E w dir = false
      /\ prompt E w (question dir) true = inr true
  | Detached _ _ => False
  | Completed (Mkdirp _) _ => False
  | Completed (Prompt q dflt) _ =>
      dflt = true
      /\ exists dir rest,
          q = question dir /\ seen = Completed (PathExists dir) None :: rest
  | Completed c _ => is_stage c = false
  end.

(** A step of a run from the world [w], as far as the operator and
    [mkdirp] go: [mkdirp] is only called detached, for a directory
    missing in [w], right after the operator has answered yes to the
    question about it; the operator is asked only about a directory that
    was just looked for, with yes as the default; nothing else is left
    unawaited. *)
Definition on_request (w : World E) (seen : list Step) (s : Step) : Prop :=
  match s with
  | Detached (Mkdirp dir) _ =>
      (exists rest, seen = Completed (Prompt (question dir) true) None :: rest)
      /\ pathExists E w dir = false
      /\ prompt E w (question dir) true = inr true
  | Detached _ _ => False
  | Completed (Mkdirp _) _ => False
  | Completed (Prompt q dflt) _ =>
      dflt = true
      /\ exists dir rest,
          q = question dir /\ seen = Completed (PathExists dir) None :: rest
  | Completed _ _ => True
  end.

(** What the pipeline for [d] and [o] logs: the announcement first, and
    the completion last, exactly when it succeeds. *)
Definition logged (d o : string) {A} (r : Result E A) : Prop :=
  (exists t, trace r = Completed (Log (bundling d o)) None :: t)
  /\ (succeeded r = true
      <-> exists pre,
          trace r = (pre ++ [Completed (Log (bundled d o)) None])%list).

(** The errors the command raises by itself. *)
Definition own_error (args : Args) (e : Exn) : Prop :=
  e = CLIError ("Plugin source " ++ directory args ++ " is not a directory.")
  \/ exists dir, e = CLIError ("Output directory " ++ dir ++ " not found.").

(** When [m] fails although no call has failed, the error is one of [own]. *)
Definition blameless (own : Exn -> Prop) {A} (m : M E A) : Prop :=
  forall w e, outcome (m w) = inl e -> quiet (trace (m w)) -> own e.

End Traces.

Arguments Faithful E {A} m.
Arguments blameless E own {A} m.

End Bundle.

(** ** A small concrete world

    An in-memory file system keyed by absolute path, an operator with a
    fixed answer, and tools that succeed unless listed in [broken].  It
    serves to run the command on concrete inputs. *)

Module Demo.

Import Bundle.

Record World : Type := {
  dirs : list string;
  files : list string;
  manifests : list (string * PackageJson);
  answer : bool;
  broken : list string
}.

Definition home : string := "/home/dev".

Definition abs (p : string) : string := Path.resolve home [p].

Definition mem (p : string) (l : list string) : bool :=
  existsb (String.eqb (abs p)) l.

Fixpoint assoc (p : string) (l : list (string * PackageJson))
  : option PackageJson :=
  match l with
  | [] => None
  | (q, m) :: l' => if q =? p then Some m else assoc p l'
  end.

Definition with_dir (d : string) (w : World) : World :=
  {| dirs := abs d :: dirs w; files := files w; manifests := manifests w;
     answer := answer w; broken := broken w |}.

Definition with_file (f : string) (w : World) : World :=
  {| dirs := dirs w; files := abs f :: files w; manifests := manifests w;
     answer := answer w; broken := broken w |}.

Definition tool (tag : string) (effect : World -> World) (w : World)
  : option Exn * World :=
  if existsb (String.eqb tag) (broken w) then (Some (Rejected tag), w)
  else (None, effect w).

Definition env : Env := {|
  Bundle.World := World;
  cwd := home;
  lstat := fun w p =>
    if mem p (dirs w) then inr {| isDirectory := true |}
    else if mem p (files w) then inr {| isDirectory := false |}
    else inl (Rejected "ENOENT");
  pathExists := fun w p => mem p (dirs w) || mem p (files w);
  readJSON := fun w p =>
    match assoc (abs p) (manifests w) with
    | Some m => inr m
    | None => inl (Rejected "ENOENT")
    end;
  prompt := fun w _ _ => inr (answer w);
  mkdirp := fun d => tool "mkdirp" (with_dir d);
  yarn_install := fun _ => tool "install" (fun w => w);
  ensureDir := fun d => tool "ensureDir" (with_dir d);
  runBuild := fun _ _ out => tool "build" (with_file out);
  yarn_pack := fun _ out => tool "pack" (with_file out)
|}.

Definition manifest (n v m b : Js.value) : PackageJson :=
  {| name := n; version := v; main := m; bundleMain := b |}.

(** A plugin in [/home/dev/plugin] with [package.json] and [index.tsx];
    [/home/dev/dist] is a directory and [/home/dev/old.tgz] a file. *)
Definition plugin (m : PackageJson) (yes : bool) (bad : list string) : World :=
  {| dirs := ["/home/dev"; "/home/dev/plugin"; "/home/dev/dist"];
     files := ["/home/dev/plugin/package.json"; "/home/dev/plugin/index.tsx";
               "/home/dev/old.tgz"];
     manifests := [("/home/dev/plugin/package.json", m)];
     answer := yes;
     broken := bad |}.

(** The same plugin without any index file. *)
Definition bare (m : PackageJson) : World :=
  {| dirs := ["/home/dev"; "/home/dev/plugin"];
     files := ["/home/dev/plugin/package.json"];
     manifests := [("/home/dev/plugin/package.json", m)];
     answer := true;
     broken := [] |}.

Definition my_plugin : PackageJson :=
  manifest (Js.Str "my-plugin") (Js.Str "1.2.3") Js.Undefined Js.Undefined.

Definition unnamed : PackageJson :=
  manifest Js.Undefined (Js.Str "0.4.1") Js.Undefined Js.Undefined.

Definition custom : PackageJson :=
  manifest (Js.Str "my-plugin") (Js.Str "1.2.3") Js.Undefined
    (Js.Str "lib/main.js").

(** The operator agrees and every tool works; the operator refuses; the
    creation of directories fails; the compiler fails. *)
Definition ready : World := plugin my_plugin true [].
Definition refusing : World := plugin my_plugin false [].
Definition no_mkdirp : World := plugin my_plugin true ["mkdirp"].
Definition no_build : World := plugin my_plugin true ["build"].

(** A plugin whose name has a scope, and one that declares its main
    file. *)
Definition scoped : PackageJson :=
  manifest (Js.Str "@acme/my-plugin") (Js.Str "1.2.3") Js.Undefined Js.Undefined.

Definition with_main : PackageJson :=
  manifest (Js.Str "my-plugin") (Js.Str "1.2.3") (Js.Str "src/main.tsx")
    Js.Undefined.

(** A manifest without a version. *)
Definition unversioned : PackageJson :=
  manifest (Js.Str "my-plugin") Js.Undefined Js.Undefined Js.Undefined.

(** The plugin directory without its manifest. *)
Definition no_manifest : World :=
  {| dirs := ["/home/dev"; "/home/dev/plugin"; "/home/dev/dist"];
     files := ["/home/dev/plugin/index.tsx"];
     manifests := [];
     answer := true;
     broken := [] |}.

Definition the_args : Args := {| directory := "plugin" |}.

Definition nowhere : Args := {| directory := "nowhere" |}.

Definition a_file : Args := {| directory := "old.tgz" |}.

Definition to (o : string) : Flags := {| output := o |}.

(** The steps of a run in this world, and how it ends. *)
Definition steps (args : Args) (flags : Flags) (w : World) : list Step :=
  trace (run (E := env) args flags w).

Definition ending (args : Args) (flags : Flags) (w : World) : Exn + unit :=
  outcome (run (E := env) args flags w).

End Demo.

(** ** The definitions at work

    The first examples are those of the documentation of Node's [path]. *)

Example normalize_doc :
  Path.normalize "/foo/bar//baz/asdf/quux/.." = "/foo/bar/baz/asdf".
Proof. reflexivity. Qed.
Example join_doc :
  Path.join ["/foo"; "bar"; "baz/asdf"; "quux"; ".."] = "/foo/bar/baz/asdf".
Proof. reflexivity. Qed.
Example resolve_doc :
  (Path.resolve "/home/u" ["/foo/bar"; "./baz"],
   Path.resolve "/home/u" ["/foo/bar"; "/tmp/file/"],
   Path.resolve "/home/myself/node"
     ["wwwroot"; "static_files/png/"; "../gif/image.gif"])
  = ("/foo/bar/baz", "/tmp/file",
     "/home/myself/node/wwwroot/static_files/gif/image.gif").
Proof. reflexivity. Qed.
Example dirname_doc : Path.dirname "/foo/bar/baz/asdf/quux" = "/foo/bar/baz/asdf".
Proof. reflexivity. Qed.
Example basename_doc : Path.basename "/foo/bar/baz/asdf/quux.html" = "quux.html".
Proof. reflexivity. Qed.
Example normalize_ex :
  map Path.normalize [""; "."; "./"; "/"; "//"; "a/.."; "a/../"; "../a/../..";
                      "/../a"; "a//b/./c/"; "..."; "a/.../b"; ".a/..b"]
  = ["."; "."; "./"; "/"; "/"; "."; "./"; "../.."; "/a"; "a/b/c/"; "...";
     "a/.../b"; ".a/..b"].
Proof. reflexivity. Qed.

Example join_dist : Path.join ["dist"; "index.js"] = "dist/index.js".
Proof. reflexivity. Qed.
Example join_dot : Path.join ["./dist/"; "my-plugin-1.2.3.tgz"] = "dist/my-plugin-1.2.3.tgz".
Proof. reflexivity. Qed.
Example join_up : Path.join ["a/b"; "../../../c/"] = "../c/".
Proof. reflexivity. Qed.
Example resolve_rel : Path.resolve "/home/u" ["./dist/x.tgz"] = "/home/u/dist/x.tgz".
Proof. reflexivity. Qed.
Example resolve_up : Path.resolve "/home/u" ["../../../x"; "y/"] = "/x/y".
Proof. reflexivity. Qed.
Example resolve_abs : Path.resolve "/home/u" ["/a/b"; "dist/index.js"] = "/a/b/dist/index.js".
Proof. reflexivity. Qed.
Example dirname_ex :
  map Path.dirname ["a//b"; "/a"; "//a"; "a"; "a/b/"; ""; "/"; "///"; "a/b/c"; "/a/b"]
  = ["a/"; "/"; "//"; "."; "a"; "."; "/"; "/"; "a/b"; "/a"].
Proof. reflexivity. Qed.
Example basename_ex :
  map Path.basename ["a/b/"; "/"; "a"; ""; "a/b.tgz"; "a//b//"]
  = ["b"; ""; "a"; ""; "b.tgz"; "b"].
Proof. reflexivity. Qed.

Example derivedName_ex :
  map Bundle.derivedName [Demo.my_plugin; Demo.unnamed]
  = ["my-plugin-1.2.3.tgz"; "-0.4.1.tgz"].
Proof. reflexivity. Qed.

Example splitTarget_ex :
  map Bundle.splitTarget ["out/"; "out/a.tgz"; "a.tgz"; ""]
  = [("out/", None); ("out", Some "a.tgz"); (".", Some "a.tgz"); (".", Some "")].
Proof. reflexivity. Qed.

(** The plugin [my-plugin] 1.2.3, with an [index.tsx] and no [bundleMain],
    bundled to the existing directory [./dist/]. *)
Example scenario :
  Demo.ending Demo.the_args (Demo.to "./dist/") Demo.ready = inr tt
  /\ Demo.steps Demo.the_args (Demo.to "./dist/") Demo.ready
     = [Bundle.Completed (Bundle.Lstat "plugin") None;
        Bundle.Completed (Bundle.PathExists "./dist/") None;
        Bundle.Completed (Bundle.Lstat "./dist/") None;
        Bundle.Completed (Bundle.ReadJSON "plugin/package.json") None;
        Bundle.Completed
          (Bundle.Log
             "⚙️  Bundling /home/dev/plugin to /home/dev/dist/my-plugin-1.2.3.tgz...")
          None;
        Bundle.Completed (Bundle.ActionStart "Installing dependencies") None;
        Bundle.Completed (Bundle.YarnInstall "/home/dev/plugin") None;
        Bundle.Completed (Bundle.ActionStop None) None;
        Bundle.Completed (Bundle.ActionStart "Reading package.json") None;
        Bundle.Completed (Bundle.ReadJSON "/home/dev/plugin/package.json") None;
        Bundle.Completed (Bundle.PathExists "/home/dev/plugin/index.tsx") None;
        Bundle.Completed
          (Bundle.ActionStop
             (Some "done. Entry: index.tsx. Bundle main: dist/index.js."))
          None;
        Bundle.Completed (Bundle.ActionStart "Compiling") None;
        Bundle.Completed (Bundle.EnsureDir "/home/dev/plugin/dist") None;
        Bundle.Completed
          (Bundle.RunBuild "/home/dev/plugin" (Js.Str "index.tsx")
             "/home/dev/plugin/dist/index.js")
          None;
        Bundle.Completed (Bundle.ActionStop None) None;
        Bundle.Completed
          (Bundle.ActionStart "Packing to /home/dev/dist/my-plugin-1.2.3.tgz")
          None;
        Bundle.Completed
          (Bundle.YarnPack "/home/dev/plugin"
             "/home/dev/dist/my-plugin-1.2.3.tgz")
          None;
        Bundle.Completed (Bundle.ActionStop None) None;
        Bundle.Completed
          (Bundle.Log
             "✅  Bundled /home/dev/plugin to /home/dev/dist/my-plugin-1.2.3.tgz")
          None].
Proof. split; reflexivity. Qed.

(** ** Facts about strings *)

Module StrFacts.

Lemma append_nil_r (s : string) : s ++ "" = s.
Proof. induction s as [|c s IH]; simpl; congruence. Qed.

Lemma is_empty_iff (s : string) : Str.is_empty s = true <-> s = "".
Proof. destruct s; simpl; split; congruence. Qed.

Lemma is_empty_false (s : string) : Str.is_empty s = false <-> s <> "".
Proof. destruct s; simpl; split; congruence. Qed.

Lemma is_empty_app (a b : string) :
  Str.is_empty (a ++ b) = Str.is_empty a && Str.is_empty b.
Proof. destruct a; reflexivity. Qed.

Lemma list_of_app (a b : string) :
  list_ascii_of_string (a ++ b)
  = (list_ascii_of_string a ++ list_ascii_of_string b)%list.
Proof. induction a as [|x a IH]; simpl; congruence. Qed.

Lemma string_of_app (l m : list ascii) :
  string_of_list_ascii (l ++ m)%list
  = string_of_list_ascii l ++ string_of_list_ascii m.
Proof. induction l as [|x l IH]; simpl; congruence. Qed.

Lemma slice_last_cons (c : ascii) (s : string) :
  s <> "" -> Str.slice_last (String c s) = Str.slice_last s.
Proof. destruct s; simpl; congruence. Qed.

Lemma slice_last_app (a b : string) :
  b <> "" -> Str.slice_last (a ++ b) = Str.slice_last b.
Proof.
  intros Hb. induction a as [|x a IH]; [reflexivity|].
  change (String x a ++ b) with (String x (a ++ b)).
  rewrite slice_last_cons; [exact IH|].
  destruct a; simpl; [exact Hb | discriminate].
Qed.

Lemma dropWhile_app_all {A} (f : A -> bool) (l m : list A) :
  forallb f l = true -> Str.dropWhile f (l ++ m)%list = Str.dropWhile f m.
Proof.
  induction l as [|x l IH]; simpl; [reflexivity|].
  intros H. apply andb_true_iff in H as [Hx Hl]. rewrite Hx. auto.
Qed.

Lemma takeWhile_app_all {A} (f : A -> bool) (l m : list A) :
  forallb f l = true ->
  Str.takeWhile f (l ++ m)%list = (l ++ Str.takeWhile f m)%list.
Proof.
  induction l as [|x l IH]; simpl; [reflexivity|].
  intros H. apply andb_true_iff in H as [Hx Hl]. rewrite Hx.
  now rewrite IH.
Qed.

Lemma slashfree_forallb (s : string) :
  Str.slashfree s
  = forallb (fun a => negb (Path.isSep a)) (list_ascii_of_string s).
Proof. induction s as [|c s IH]; simpl; [reflexivity|]. now rewrite IH. Qed.

Lemma append_assoc_l (a b c : string) : (a ++ b) ++ c = a ++ (b ++ c).
Proof. induction a as [|x a IH]; simpl; congruence. Qed.

Lemma append_char_r (a : string) (c : ascii) (b : string) :
  (a ++ String c "") ++ b = a ++ String c b.
Proof. now rewrite append_assoc_l. Qed.

Lemma slice_last_slashfree (s : string) :
  Str.slashfree s = true -> s <> "" -> Str.slice_last s <> "/".
Proof.
  induction s as [|c s IH]; [congruence|]. intros Hs _. simpl in Hs.
  apply andb_true_iff in Hs as [Hc Hs]. apply negb_true_iff in Hc.
  destruct s as [|c' s].
  - simpl. intros H. injection H as ->. discriminate Hc.
  - rewrite slice_last_cons by discriminate. apply IH; [exact Hs|discriminate].
Qed.

End StrFacts.

(** ** Facts about [Path] *)

Module PathFacts.

Import StrFacts.
Import Path.

Lemma split_not_nil (p : string) : Path.split p <> [].
Proof.
  induction p as [|c p IH]; simpl; [discriminate|].
  destruct (Path.isSep c); [discriminate|].
  destruct (Path.split p); discriminate.
Qed.

Lemma split_sep (a b : string) :
  Path.split (a ++ "/" ++ b) = (Path.split a ++ Path.split b)%list.
Proof.
  induction a as [|c a IH]; [reflexivity|].
  change (String c a ++ "/" ++ b) with (String c (a ++ "/" ++ b)).
  cbn [Path.split]. rewrite IH.
  destruct (Path.isSep c); [reflexivity|].
  destruct (Path.split a) eqn:Ha; [now apply split_not_nil in Ha|reflexivity].
Qed.

Lemma split_slashfree (s : string) :
  Str.slashfree s = true -> Path.split s = [s].
Proof.
  induction s as [|c s IH]; [reflexivity|].
  cbn [Str.slashfree Path.split]. intros H.
  apply andb_true_iff in H as [Hc Hs]. unfold Path.isSep.
  apply negb_true_iff in Hc. rewrite Hc, (IH Hs). reflexivity.
Qed.

Lemma split_slashfree_all (p : string) : slashfree_all (Path.split p).
Proof.
  unfold slashfree_all.
  induction p as [|c p IH]; cbn [Path.split]; [repeat constructor|].
  destruct (Path.isSep c) eqn:Hc; [constructor; [reflexivity|exact IH]|].
  destruct (Path.split p) as [|seg segs]; [repeat constructor; simpl|].
  - unfold Path.isSep in Hc. now rewrite Hc.
  - inversion IH; subst. constructor; [|assumption].
    simpl. unfold Path.isSep in Hc. now rewrite Hc.
Qed.

Lemma split_concat (T : list string) :
  T <> [] -> slashfree_all T -> Path.split (String.concat "/" T) = T.
Proof.
  induction T as [|x T IH]; [congruence|]. intros _ H.
  inversion H as [|? ? Hx HT]; subst.
  destruct T as [|y T]; [now apply split_slashfree|].
  change (String.concat "/" (x :: y :: T))
    with (x ++ "/" ++ String.concat "/" (y :: T)).
  rewrite split_sep, (split_slashfree _ Hx), IH; [reflexivity|discriminate|exact HT].
Qed.

(** *** The stack discipline *)

Lemma step_name (a : bool) (res : list string) (seg : string) :
  Path.is_name seg = true -> Path.step a res seg = seg :: res.
Proof.
  unfold Path.is_name, Path.step. intros H.
  apply andb_true_iff in H as [H H3]. apply andb_true_iff in H as [H1 H2].
  apply negb_true_iff in H1, H2, H3. now rewrite H1, H2, H3.
Qed.

Lemma step_cases (seg : string) :
  seg = "" \/ seg = "." \/ seg = ".." \/ Path.is_name seg = true.
Proof.
  unfold Path.is_name.
  destruct (String.eqb_spec seg ""); [auto|].
  destruct (String.eqb_spec seg "."); [auto|].
  destruct (String.eqb_spec seg ".."); auto.
Qed.

Lemma fold_names (a : bool) (T S : list string) :
  names T -> fold_left (Path.step a) T S = (rev T ++ S)%list.
Proof.
  revert S. induction T as [|x T IH]; intros S H; [reflexivity|].
  inversion H; subst. cbn [fold_left rev].
  rewrite step_name, IH by assumption. now rewrite <- app_assoc.
Qed.

Lemma step_keeps_names (S : list string) (seg : string) :
  names S -> names (Path.step false S seg).
Proof.
  intros HS. destruct (step_cases seg) as [->|[->|[->|Hn]]].
  - exact HS.
  - exact HS.
  - unfold Path.step; simpl. destruct S as [|top below]; [constructor|].
    inversion HS; subst. destruct (top =? ".."); assumption.
  - rewrite step_name by assumption. now constructor.
Qed.

Lemma fold_keeps_names (segs S : list string) :
  names S -> names (fold_left (Path.step false) segs S).
Proof.
  revert S. induction segs as [|x segs IH]; intros S HS; [exact HS|].
  apply IH, step_keeps_names, HS.
Qed.

Lemma step_keeps_names_or_up (a : bool) (S : list string) (seg : string) :
  names_or_up S -> names_or_up (Path.step a S seg).
Proof.
  intros HS. destruct (step_cases seg) as [->|[->|[->|Hn]]].
  - exact HS.
  - exact HS.
  - unfold Path.step; simpl. destruct S as [|top below].
    + destruct a; [apply Forall_cons; [now right|]|]; constructor.
    + inversion HS; subst. destruct (top =? "..");
        [destruct a; [constructor; [now right|]|]|]; assumption.
  - rewrite step_name by assumption. constructor; [now left|assumption].
Qed.

Lemma fold_keeps_names_or_up (a : bool) (segs S : list string) :
  names_or_up S -> names_or_up (fold_left (Path.step a) segs S).
Proof.
  revert S. induction segs as [|x segs IH]; intros S HS; [exact HS|].
  apply IH, step_keeps_names_or_up, HS.
Qed.

Lemma step_keeps_slashfree (a : bool) (S : list string) (seg : string) :
  Str.slashfree seg = true -> slashfree_all S ->
  slashfree_all (Path.step a S seg).
Proof.
  intros Hseg HS. destruct (step_cases seg) as [->|[->|[->|Hn]]].
  - exact HS.
  - exact HS.
  - unfold Path.step; simpl. destruct S as [|top below].
    + destruct a; repeat constructor.
    + inversion HS; subst. destruct (top =? "..");
        [destruct a; [constructor; [reflexivity|]|]|]; assumption.
  - rewrite step_name by assumption. now constructor.
Qed.

Lemma fold_keeps_slashfree (a : bool) (segs S : list string) :
  slashfree_all segs -> slashfree_all S ->
  slashfree_all (fold_left (Path.step a) segs S).
Proof.
  revert S. induction segs as [|x segs IH]; intros S Hs HS; [exact HS|].
  inversion Hs; subst. apply IH; [assumption|].
  now apply step_keeps_slashfree.
Qed.

Lemma step_empty (a : bool) (S : list string) : Path.step a S "" = S.
Proof. reflexivity. Qed.

Lemma step_up (a : bool) (top : string) (below : list string) :
  Path.step a (top :: below) ".."
  = if top =? ".." then (if a then ".." :: top :: below else top :: below)
    else below.
Proof. reflexivity. Qed.

(** Feeding a relative normal form to the stack, one segment further. *)
Lemma step_renorm (a : bool) (T S : list string) (x : string) :
  names_or_up T ->
  fold_left (Path.step a) (rev (Path.step true T x)) S
  = Path.step a (fold_left (Path.step a) (rev T) S) x.
Proof.
  intros HT. destruct (step_cases x) as [->|[->|[->|Hn]]].
  - reflexivity.
  - reflexivity.
  - destruct T as [|top below]; [reflexivity|].
    inversion HT as [|? ? Htop Hbelow]; subst.
    rewrite (step_up true).
    destruct (top =? "..") eqn:Hup.
    + cbn [rev]. rewrite fold_left_app. reflexivity.
    + destruct Htop as [Hname | ->]; [|discriminate Hup].
      cbn [rev]. rewrite fold_left_app. cbn [fold_left].
      rewrite (step_name a _ top Hname), step_up. now rewrite Hup.
  - rewrite (step_name true T x Hn). cbn [rev].
    rewrite fold_left_app. reflexivity.
Qed.

(** Normalising a relative path first does not change where it leads. *)
Lemma fold_renorm (a : bool) (segs S : list string) :
  fold_left (Path.step a) (rev (fold_left (Path.step true) segs [])) S
  = fold_left (Path.step a) segs S.
Proof.
  induction segs as [|x segs IH] using rev_ind; [reflexivity|].
  rewrite !fold_left_app. cbn [fold_left].
  rewrite step_renorm, IH; [reflexivity|].
  apply fold_keeps_names_or_up. constructor.
Qed.

Lemma segments_names (p : string) : names (Path.segments false p).
Proof. apply Forall_rev, fold_keeps_names. constructor. Qed.

Lemma segments_names_or_up (a : bool) (p : string) :
  names_or_up (Path.segments a p).
Proof. apply Forall_rev, fold_keeps_names_or_up. constructor. Qed.

Lemma segments_slashfree (a : bool) (p : string) :
  slashfree_all (Path.segments a p).
Proof.
  apply Forall_rev, fold_keeps_slashfree; [apply split_slashfree_all|constructor].
Qed.

Lemma concat_is_empty (T : list string) :
  names_or_up T -> Str.is_empty (String.concat "/" T) = true -> T = [].
Proof.
  intros HT. destruct T as [|x T]; [reflexivity|].
  inversion HT as [|? ? Hx _]; subst.
  assert (x <> "") as Hne by (destruct Hx as [Hx| ->]; [now destruct x|discriminate]).
  destruct T as [|y T]; simpl; destruct x; try congruence; discriminate.
Qed.

Lemma concat_head (x : string) (T : list string) :
  exists rest, String.concat "/" (x :: T) = x ++ rest.
Proof.
  destruct T as [|y T].
  - exists "". simpl. now rewrite append_nil_r.
  - now exists ("/" ++ String.concat "/" (y :: T)).
Qed.

Lemma concat_relative (T : list string) :
  names_or_up T -> slashfree_all T ->
  Path.isAbsolute (String.concat "/" T) = false.
Proof.
  intros HT HS. destruct T as [|x T]; [reflexivity|].
  destruct (concat_head x T) as [rest ->].
  inversion HT as [|? ? Hx _]; inversion HS as [|? ? Hs _]; subst.
  destruct x as [|c x]; [destruct Hx; discriminate|].
  simpl in Hs. apply andb_true_iff in Hs as [Hc _].
  now apply negb_true_iff in Hc.
Qed.

Lemma isAbsolute_app (a b : string) :
  a <> "" -> Path.isAbsolute (a ++ b) = Path.isAbsolute a.
Proof. destruct a; [congruence|reflexivity]. Qed.

(** What [normalize] returns, read back as segments, is what it computed. *)
Lemma normalize_split (b : bool) (S : list string) (p : string) :
  p <> "" ->
  fold_left (Path.step b) (Path.split (Path.normalize p)) S
  = fold_left (Path.step b) (Path.segments (negb (Path.isAbsolute p)) p) S.
Proof.
  intros Hp. unfold Path.normalize, Path.normalizeString.
  apply is_empty_false in Hp. rewrite Hp.
  pose proof (segments_names_or_up (negb (Path.isAbsolute p)) p) as HT.
  pose proof (segments_slashfree (negb (Path.isAbsolute p)) p) as HS.
  set (T := Path.segments (negb (Path.isAbsolute p)) p) in *.
  destruct (Str.is_empty (String.concat "/" T)) eqn:Hc.
  - rewrite (concat_is_empty T HT Hc).
    destruct (Path.isAbsolute p), (Path.trailingSeparator p); reflexivity.
  - assert (T <> []) as Hne by (intros ->; discriminate Hc).
    set (c := String.concat "/" T) in *.
    assert (Path.split c = T) as Hsplit by now apply split_concat.
    destruct (Path.isAbsolute p), (Path.trailingSeparator p).
    + change ("/" ++ c ++ "/") with ("" ++ "/" ++ c ++ "/" ++ "").
      rewrite !split_sep, Hsplit, !fold_left_app. reflexivity.
    + change ("/" ++ c) with ("" ++ "/" ++ c).
      rewrite !split_sep, Hsplit, !fold_left_app. reflexivity.
    + change (c ++ "/") with (c ++ "/" ++ "").
      rewrite !split_sep, Hsplit, !fold_left_app. reflexivity.
    + now rewrite Hsplit.
Qed.

Lemma normalize_isAbsolute (p : string) :
  p <> "" -> Path.isAbsolute (Path.normalize p) = Path.isAbsolute p.
Proof.
  intros Hp. unfold Path.normalize, Path.normalizeString.
  apply is_empty_false in Hp. rewrite Hp.
  pose proof (segments_names_or_up (negb (Path.isAbsolute p)) p) as HT.
  pose proof (segments_slashfree (negb (Path.isAbsolute p)) p) as HS.
  set (T := Path.segments (negb (Path.isAbsolute p)) p) in *.
  destruct (Str.is_empty (String.concat "/" T)) eqn:Hc.
  - destruct (Path.isAbsolute p), (Path.trailingSeparator p); reflexivity.
  - apply is_empty_false in Hc.
    destruct (Path.isAbsolute p); [reflexivity|].
    destruct (Path.trailingSeparator p);
      [rewrite isAbsolute_app by exact Hc|]; now apply concat_relative.
Qed.

(** *** [resolve] *)

Lemma absolute_not_empty (p : string) :
  Path.isAbsolute p = true -> Str.is_empty p = false.
Proof. destruct p; [discriminate|reflexivity]. Qed.

Lemma gather_reaches_cwd (cwd : string) (l : list string) (acc : string) :
  Path.isAbsolute cwd = true -> snd (Path.gather (l ++ [cwd]) acc) = true.
Proof.
  intros Hcwd. revert acc.
  induction l as [|p l IH]; intros acc; simpl.
  - now rewrite (absolute_not_empty _ Hcwd), Hcwd.
  - destruct (Str.is_empty p); [apply IH|].
    destruct (Path.isAbsolute p); [reflexivity|apply IH].
Qed.

(** The result of [resolve] under an absolute working directory: a slash
    and names. *)
Lemma resolve_shape (cwd : string) (args : list string) :
  Path.isAbsolute cwd = true ->
  exists T, names T /\ slashfree_all T
            /\ Path.resolve cwd args = "/" ++ String.concat "/" T.
Proof.
  intros Hcwd. unfold Path.resolve.
  pose proof (gather_reaches_cwd cwd (rev args) "" Hcwd) as H.
  destruct (Path.gather (rev args ++ [cwd]) "") as [X found].
  simpl in H. subst found. exists (Path.segments false X).
  split; [apply segments_names|]. split; [apply segments_slashfree|reflexivity].
Qed.

(** [resolve] of one path, segment by segment. *)
Lemma resolve_one (cwd p : string) :
  Path.isAbsolute cwd = true ->
  Path.resolve cwd [p]
  = "/" ++ String.concat "/"
      (rev (fold_left (Path.step false)
              (if Path.isAbsolute p then Path.split p
               else Path.split cwd ++ Path.split p)%list [])).
Proof.
  intros Hcwd. unfold Path.resolve. cbn [rev app Path.gather].
  destruct (Str.is_empty p) eqn:Hp.
  - apply is_empty_iff in Hp. subst p.
    rewrite (absolute_not_empty _ Hcwd), Hcwd. cbn [negb Path.isAbsolute].
    unfold Path.normalizeString, Path.segments. now rewrite split_sep.
  - destruct (Path.isAbsolute p) eqn:Habs; cbn [negb].
    + unfold Path.normalizeString, Path.segments.
      now rewrite split_sep, fold_left_app.
    + rewrite (absolute_not_empty _ Hcwd), Hcwd. cbn [negb].
      unfold Path.normalizeString, Path.segments.
      now rewrite !split_sep, !fold_left_app.
Qed.

Lemma resolve_fixed (cwd : string) (T : list string) :
  Path.isAbsolute cwd = true -> names T -> slashfree_all T ->
  Path.resolve cwd ["/" ++ String.concat "/" T] = "/" ++ String.concat "/" T.
Proof.
  intros Hcwd HT HS. rewrite (resolve_one _ _ Hcwd).
  replace (Path.isAbsolute ("/" ++ String.concat "/" T)) with true
    by reflexivity.
  change (Path.split ("/" ++ String.concat "/" T))
    with ("" :: Path.split (String.concat "/" T)).
  cbn [fold_left]. rewrite step_empty.
  destruct T as [|x T]; [reflexivity|].
  rewrite split_concat by (assumption || discriminate).
  rewrite fold_names by assumption.
  now rewrite app_nil_r, rev_involutive.
Qed.

(** An absolute last argument is all that [resolve] looks at. *)
Lemma resolve_absolute_last (cwd d p : string) :
  Path.isAbsolute p = true -> Path.resolve cwd [d; p] = Path.resolve cwd [p].
Proof.
  intros Hp. unfold Path.resolve. cbn [rev app Path.gather].
  now rewrite (absolute_not_empty _ Hp), Hp.
Qed.

(** Resolving a resolved path gives it back. *)
Lemma resolve_idempotent (cwd : string) (args : list string) :
  Path.isAbsolute cwd = true ->
  Path.resolve cwd [Path.resolve cwd args] = Path.resolve cwd args.
Proof.
  intros Hcwd. destruct (resolve_shape cwd args Hcwd) as (T & HT & HS & ->).
  now apply resolve_fixed.
Qed.

(** [resolve] does not see whether its argument was normalised. *)
Lemma resolve_normalize (cwd p : string) :
  Path.isAbsolute cwd = true ->
  Path.resolve cwd [Path.normalize p] = Path.resolve cwd [p].
Proof.
  intros Hcwd. rewrite !(resolve_one _ _ Hcwd).
  destruct (string_dec p "") as [->|Hp].
  - cbn [Path.normalize Str.is_empty Path.isAbsolute Path.isSep Ascii.eqb Bool.eqb].
    now rewrite !fold_left_app.
  - rewrite (normalize_isAbsolute p Hp). do 2 f_equal.
    destruct (Path.isAbsolute p) eqn:Habs.
    + rewrite normalize_split, Habs by exact Hp. cbn [negb].
      unfold Path.segments. rewrite fold_names, app_nil_r, rev_involutive;
        [reflexivity|]. apply (segments_names p).
    + rewrite !fold_left_app, normalize_split, Habs by exact Hp. cbn [negb].
      f_equal. apply fold_renorm.
Qed.

(** *** [dirname] and [basename] *)

Lemma dropWhile_none {A} (f : A -> bool) (l : list A) :
  forallb (fun x => negb (f x)) l = true -> Str.dropWhile f l = l.
Proof.
  destruct l as [|x l]; [reflexivity|]. simpl. intros H.
  apply andb_true_iff in H as [Hx _]. apply negb_true_iff in Hx.
  now rewrite Hx.
Qed.

Lemma dropWhile_all {A} (f : A -> bool) (l : list A) :
  forallb f l = true -> Str.dropWhile f l = [].
Proof.
  intros H. rewrite <- (app_nil_r l). now rewrite dropWhile_app_all.
Qed.

Lemma takeWhile_all {A} (f : A -> bool) (l : list A) :
  forallb f l = true -> Str.takeWhile f l = l.
Proof.
  intros H. rewrite <- (app_nil_r l) at 1.
  rewrite takeWhile_app_all by exact H. apply app_nil_r.
Qed.

Lemma forallb_rev {A} (f : A -> bool) (l : list A) :
  forallb f (rev l) = forallb f l.
Proof.
  induction l as [|x l IH]; [reflexivity|]. simpl.
  rewrite forallb_app, IH. simpl. rewrite andb_true_r. apply andb_comm.
Qed.

Lemma rev_chars_notSep (b : string) :
  Str.slashfree b = true ->
  forallb notSep (rev (list_ascii_of_string b)) = true.
Proof. intros H. now rewrite forallb_rev, <- slashfree_forallb. Qed.

(** Every string is free of separators or has a last one. *)
Lemma last_sep (s : string) :
  Str.slashfree s = true
  \/ exists pre b, s = pre ++ "/" ++ b /\ Str.slashfree b = true.
Proof.
  induction s as [|c s [Hs | (pre & b & -> & Hb)]].
  - now left.
  - destruct (Ascii.eqb c "/") eqn:Hc.
    + apply Ascii.eqb_eq in Hc. subst c. right. now exists "", s.
    + left. simpl. now rewrite Hc.
  - right. now exists (String c pre), b.
Qed.

Lemma basename_slashfree (b : string) :
  Str.slashfree b = true -> Path.basename b = b.
Proof.
  intros Hb. unfold Path.basename.
  pose proof (rev_chars_notSep b Hb) as Hrev.
  rewrite (dropWhile_none Path.isSep).
  - fold notSep. rewrite takeWhile_all, rev_involutive by exact Hrev.
    apply string_of_list_ascii_of_string.
  - exact Hrev.
Qed.

Lemma rev_chars_sep (pre b : string) :
  rev (list_ascii_of_string (pre ++ "/" ++ b))
  = (rev (list_ascii_of_string b)
       ++ "/"%char :: rev (list_ascii_of_string pre))%list.
Proof.
  rewrite list_of_app, rev_app_distr. simpl. now rewrite <- app_assoc.
Qed.

Lemma rev_chars_head (b : string) :
  Str.slashfree b = true -> b <> "" ->
  exists y ys, rev (list_ascii_of_string b) = y :: ys /\ Path.isSep y = false.
Proof.
  intros Hb Hne. pose proof (rev_chars_notSep b Hb) as Hrev.
  destruct (rev (list_ascii_of_string b)) as [|y ys] eqn:E.
  - exfalso. apply Hne. rewrite <- (string_of_list_ascii_of_string b).
    rewrite <- (rev_involutive (list_ascii_of_string b)), E. reflexivity.
  - exists y, ys. split; [reflexivity|]. simpl in Hrev.
    apply andb_true_iff in Hrev as [Hy _]. now apply negb_true_iff in Hy.
Qed.

Lemma basename_sep (pre b : string) :
  Str.slashfree b = true -> b <> "" ->
  Path.basename (pre ++ "/" ++ b) = b.
Proof.
  intros Hb Hne. unfold Path.basename. rewrite rev_chars_sep.
  pose proof (rev_chars_notSep b Hb) as Hrev.
  destruct (rev_chars_head b Hb Hne) as (y & ys & E & Hy).
  rewrite E in *. cbn [app Str.dropWhile]. rewrite Hy. rewrite <- E in *.
  change (y :: (ys ++ ?m))%list with ((y :: ys) ++ m)%list.
  rewrite <- E, takeWhile_app_all by exact Hrev.
  simpl. rewrite app_nil_r, rev_involutive.
  apply string_of_list_ascii_of_string.
Qed.

Lemma scan_slashfree (b : string) :
  Str.slashfree b = true ->
  Str.dropWhile notSep
    (Str.dropWhile Path.isSep (rev (list_ascii_of_string b))) = [].
Proof.
  intros Hb. pose proof (rev_chars_notSep b Hb) as Hrev.
  rewrite (dropWhile_none Path.isSep); [now apply dropWhile_all|exact Hrev].
Qed.

Lemma dirname_slashfree (p : string) :
  Str.slashfree p = true -> Path.dirname p = ".".
Proof.
  destruct p as [|c rest]; [reflexivity|]. simpl. intros H.
  apply andb_true_iff in H as [Hc Hrest]. apply negb_true_iff in Hc.
  unfold Path.dirname. fold notSep. rewrite (scan_slashfree rest Hrest).
  unfold Path.isSep. now rewrite Hc.
Qed.

Lemma dirname_root (b : string) :
  Str.slashfree b = true -> Path.dirname ("/" ++ b) = "/".
Proof.
  intros Hb. change ("/" ++ b) with (String "/" b).
  unfold Path.dirname. fold notSep. now rewrite (scan_slashfree b Hb).
Qed.

Lemma dirname_sep (c : ascii) (pre b : string) :
  Str.slashfree b = true -> b <> "" ->
  Path.dirname (String c pre ++ "/" ++ b)
  = if Path.isSep c && Str.is_empty pre then "//" else String c pre.
Proof.
  intros Hb Hne. change (String c pre ++ "/" ++ b) with (String c (pre ++ "/" ++ b)).
  unfold Path.dirname. fold notSep. rewrite rev_chars_sep.
  pose proof (rev_chars_notSep b Hb) as Hrev.
  destruct (rev_chars_head b Hb Hne) as (y & ys & E & Hy).
  rewrite E in *. cbn [app Str.dropWhile]. rewrite Hy. rewrite <- E in *.
  change (y :: (ys ++ ?m))%list with ((y :: ys) ++ m)%list.
  rewrite <- E, dropWhile_app_all by exact Hrev.
  cbn [Str.dropWhile]. replace (notSep "/") with false by reflexivity.
  rewrite rev_involutive, string_of_list_ascii_of_string.
  replace (Str.is_empty (string_of_list_ascii (rev (list_ascii_of_string pre))))
    with (Str.is_empty pre); [reflexivity|].
  destruct pre as [|a pre]; [reflexivity|]. simpl.
  rewrite string_of_app, is_empty_app. simpl. now rewrite andb_false_r.
Qed.

(** *** [join] of the two halves *)

Lemma join_two (d b : string) :
  d <> "" -> b <> "" -> Path.join [d; b] = Path.normalize (d ++ "/" ++ b).
Proof.
  intros Hd Hb. apply is_empty_false in Hd, Hb.
  unfold Path.join, Path.joined. simpl. now rewrite Hd, Hb.
Qed.

Lemma normalize_congr (q p : string) :
  q <> "" -> p <> "" ->
  Path.isAbsolute q = Path.isAbsolute p ->
  Path.trailingSeparator q = Path.trailingSeparator p ->
  Path.segments (negb (Path.isAbsolute p)) q
  = Path.segments (negb (Path.isAbsolute p)) p ->
  Path.normalize q = Path.normalize p.
Proof.
  intros Hq Hp Ha Ht Hs. apply is_empty_false in Hq, Hp.
  unfold Path.normalize, Path.normalizeString.
  now rewrite Hq, Hp, Ha, Ht, Hs.
Qed.

Lemma trailing_sep_end (pre : string) :
  Path.trailingSeparator (pre ++ "/") = true.
Proof.
  unfold Path.trailingSeparator. now rewrite slice_last_app by discriminate.
Qed.

(** Cutting a path that names a file into directory and file, and joining
    the two again, is normalising it. *)
Lemma join_dirname_basename (p : string) :
  Path.trailingSeparator p = false ->
  Path.join [Path.dirname p; Path.basename p] = Path.normalize p.
Proof.
  intros Ht. destruct (string_dec p "") as [->|Hp]; [reflexivity|].
  destruct (last_sep p) as [Hfree | (pre & b & -> & Hb)].
  - rewrite (dirname_slashfree p Hfree), (basename_slashfree p Hfree).
    rewrite join_two by (assumption || discriminate).
    apply normalize_congr; try assumption; try discriminate.
    + destruct p as [|c p]; [congruence|]. simpl in Hfree.
      apply andb_true_iff in Hfree as [Hc _]. apply negb_true_iff in Hc.
      simpl. unfold Path.isSep. now rewrite Hc.
    + unfold Path.trailingSeparator.
      change ("." ++ "/" ++ p) with ("./" ++ p).
      now rewrite slice_last_app.
    + unfold Path.segments. now rewrite split_sep.
  - assert (b <> "") as Hne.
    { intros ->. rewrite trailing_sep_end in Ht. discriminate. }
    rewrite (basename_sep pre b Hb Hne).
    destruct pre as [|c pre].
    + change ("" ++ "/" ++ b) with ("/" ++ b).
      rewrite (dirname_root b Hb), join_two by (assumption || discriminate).
      apply normalize_congr; try assumption; try discriminate.
      * reflexivity.
      * unfold Path.trailingSeparator.
        change ("/" ++ "/" ++ b) with ("//" ++ b).
        now rewrite !slice_last_app.
      * reflexivity.
    + rewrite (dirname_sep c pre b Hb Hne).
      destruct (Path.isSep c && Str.is_empty pre) eqn:Hroot.
      * apply andb_true_iff in Hroot as [Hc Hpre].
        apply is_empty_iff in Hpre. apply Ascii.eqb_eq in Hc. subst c pre.
        rewrite join_two by (assumption || discriminate).
        apply normalize_congr; try assumption; try discriminate.
        -- reflexivity.
        -- unfold Path.trailingSeparator.
           change ("//" ++ "/" ++ b) with ("///" ++ b).
           change ("/" ++ "/" ++ b) with ("//" ++ b).
           now rewrite !slice_last_app.
        -- reflexivity.
      * now rewrite join_two by (assumption || discriminate).
Qed.

(** The path of a file, cut and joined again, resolves as the path itself. *)
Lemma resolve_join_dirname_basename (cwd p : string) :
  Path.isAbsolute cwd = true ->
  Path.trailingSeparator p = false ->
  Path.resolve cwd [Path.join [Path.dirname p; Path.basename p]]
  = Path.resolve cwd [p].
Proof.
  intros Hcwd Ht. rewrite (join_dirname_basename p Ht).
  now apply resolve_normalize.
Qed.

(** *** A file name put under a directory *)

Lemma concat_snoc (T : list string) (f : string) :
  T <> [] -> String.concat "/" (T ++ [f]) = String.concat "/" T ++ "/" ++ f.
Proof.
  induction T as [|x T IH]; [congruence|]. intros _.
  destruct T as [|y T]; [reflexivity|].
  change (String.concat "/" ((x :: y :: T) ++ [f]))
    with (x ++ "/" ++ String.concat "/" ((y :: T) ++ [f])).
  rewrite IH by discriminate.
  change (String.concat "/" (x :: y :: T))
    with (x ++ "/" ++ String.concat "/" (y :: T)).
  rewrite !append_assoc_l. reflexivity.
Qed.

Lemma name_relative (f : string) :
  is_name f = true -> Str.slashfree f = true -> Path.isAbsolute f = false.
Proof.
  destruct f as [|c f]; [discriminate|]. intros _ Hs. simpl in Hs.
  apply andb_true_iff in Hs as [Hc _]. now apply negb_true_iff in Hc.
Qed.

Lemma name_not_empty (f : string) : is_name f = true -> f <> "".
Proof. now destruct f. Qed.

Lemma shape_child (T : list string) (f : string) :
  names T ->
  child ("/" ++ String.concat "/" T) f = "/" ++ String.concat "/" (T ++ [f]).
Proof.
  intros HT. unfold child. destruct T as [|x T]; [reflexivity|].
  rewrite concat_snoc by discriminate.
  assert (Str.is_empty (String.concat "/" (x :: T)) = false) as Hne.
  { destruct (Str.is_empty (String.concat "/" (x :: T))) eqn:H; [|reflexivity].
    apply concat_is_empty in H; [discriminate|].
    revert HT. apply Forall_impl. intros s Hs. now left. }
  destruct (String.concat "/" (x :: T)) as [|c rest]; [discriminate|].
  reflexivity.
Qed.

(** A name joined to a directory and resolved is that name under the
    resolved directory. *)
Lemma resolve_join_name (cwd t f : string) :
  Path.isAbsolute cwd = true -> is_name f = true -> Str.slashfree f = true ->
  Path.resolve cwd [Path.join [t; f]] = child (Path.resolve cwd [t]) f.
Proof.
  intros Hcwd Hn Hs.
  pose proof (name_not_empty f Hn) as Hf.
  assert (exists S, names S
                    /\ Path.resolve cwd [t] = "/" ++ String.concat "/" (rev S)
                    /\ Path.resolve cwd [Path.join [t; f]]
                       = "/" ++ String.concat "/" (rev (f :: S)))
    as (S & HS & -> & ->).
  { destruct (string_dec t "") as [->|Ht].
    - exists (fold_left (Path.step false) (Path.split cwd) []).
      split; [apply fold_keeps_names; constructor|].
      split; [rewrite (resolve_one _ _ Hcwd); cbn [Path.isAbsolute];
              now rewrite fold_left_app|].
      replace (Path.join [""; f]) with (Path.normalize f).
      + rewrite (resolve_normalize _ _ Hcwd), (resolve_one _ _ Hcwd).
        rewrite (name_relative f Hn Hs), (split_slashfree f Hs), fold_left_app.
        cbn [fold_left]. now rewrite step_name.
      + unfold Path.join, Path.joined. cbn [fold_left Str.is_empty].
        apply is_empty_false in Hf. now rewrite Hf.
    - exists (fold_left (Path.step false)
                (if Path.isAbsolute t then Path.split t
                 else Path.split cwd ++ Path.split t)%list []).
      split; [apply fold_keeps_names; constructor|].
      split; [apply (resolve_one _ _ Hcwd)|].
      rewrite (join_two t f Ht Hf), (resolve_normalize _ _ Hcwd),
        (resolve_one _ _ Hcwd).
      rewrite (isAbsolute_app t ("/" ++ f) Ht), split_sep, (split_slashfree f Hs).
      destruct (Path.isAbsolute t); rewrite ?app_assoc, fold_left_app;
        cbn [fold_left]; now rewrite step_name. }
  cbn [rev]. symmetry. apply shape_child. now apply Forall_rev.
Qed.

Lemma basename_child (T : list string) (f : string) :
  names T -> is_name f = true -> Str.slashfree f = true ->
  Path.basename (child ("/" ++ String.concat "/" T) f) = f.
Proof.
  intros HT Hn Hs. unfold child.
  destruct (("/" ++ String.concat "/" T) =? "/");
    [apply (basename_sep "" f Hs (name_not_empty f Hn))
    |apply (basename_sep _ f Hs (name_not_empty f Hn))].
Qed.

Lemma dirname_child (T : list string) (f : string) :
  names T -> is_name f = true -> Str.slashfree f = true ->
  Path.dirname (child ("/" ++ String.concat "/" T) f)
  = "/" ++ String.concat "/" T.
Proof.
  intros HT Hn Hs. unfold child.
  destruct (String.eqb_spec ("/" ++ String.concat "/" T) "/") as [Heq|Hne].
  - rewrite Heq. apply (dirname_root f Hs).
  - change (("/" ++ String.concat "/" T) ++ "/" ++ f)
      with (String "/" (String.concat "/" T) ++ "/" ++ f).
    rewrite (dirname_sep _ _ f Hs (name_not_empty f Hn)).
    destruct (String.concat "/" T) as [|c rest]; [now destruct Hne|reflexivity].
Qed.

Lemma basename_is_slashfree (p : string) : Str.slashfree (Path.basename p) = true.
Proof.
  unfold Path.basename. rewrite slashfree_forallb, list_ascii_of_string_of_list_ascii.
  rewrite forallb_rev.
  generalize (Str.dropWhile Path.isSep (rev (list_ascii_of_string p))).
  intros l. induction l as [|a l IH]; [reflexivity|]. simpl.
  destruct (negb (Path.isSep a)) eqn:Ha; [simpl; now rewrite Ha|reflexivity].
Qed.

(** A name with a scope, [a/b], joined to a directory and resolved is
    [b] under [a] under the resolved directory: the separator inside it
    opens a directory of its own. *)
Lemma resolve_join_scoped (cwd t a b : string) :
  Path.isAbsolute cwd = true ->
  is_name a = true -> Str.slashfree a = true ->
  is_name b = true -> Str.slashfree b = true ->
  Path.resolve cwd [Path.join [t; a ++ "/" ++ b]]
  = child (child (Path.resolve cwd [t]) a) b.
Proof.
  intros Hcwd Ha Hsa Hb Hsb.
  set (f := a ++ "/" ++ b).
  assert (f <> "") as Hf.
  { unfold f. pose proof (name_not_empty a Ha). now destruct a. }
  assert (Path.isAbsolute f = false) as Hrel.
  { unfold f. rewrite (isAbsolute_app a _ (name_not_empty a Ha)).
    exact (name_relative a Ha Hsa). }
  assert (Path.split f = [a; b]) as Hsplit.
  { unfold f. now rewrite split_sep, (split_slashfree a Hsa), (split_slashfree b Hsb). }
  assert (exists S, names S
                    /\ Path.resolve cwd [t] = "/" ++ String.concat "/" (rev S)
                    /\ Path.resolve cwd [Path.join [t; f]]
                       = "/" ++ String.concat "/" (rev (b :: a :: S)))
    as (S & HS & -> & ->).
  { destruct (string_dec t "") as [->|Ht].
    - exists (fold_left (Path.step false) (Path.split cwd) []).
      split; [apply fold_keeps_names; constructor|].
      split; [rewrite (resolve_one _ _ Hcwd); cbn [Path.isAbsolute];
              now rewrite fold_left_app|].
      replace (Path.join [""; f]) with (Path.normalize f).
      + rewrite (resolve_normalize _ _ Hcwd), (resolve_one _ _ Hcwd).
        rewrite Hrel, Hsplit, fold_left_app.
        cbn [fold_left]. now rewrite !step_name.
      + unfold Path.join, Path.joined. cbn [fold_left Str.is_empty].
        apply is_empty_false in Hf. now rewrite Hf.
    - exists (fold_left (Path.step false)
                (if Path.isAbsolute t then Path.split t
                 else Path.split cwd ++ Path.split t)%list []).
      split; [apply fold_keeps_names; constructor|].
      split; [apply (resolve_one _ _ Hcwd)|].
      rewrite (join_two t f Ht Hf), (resolve_normalize _ _ Hcwd),
        (resolve_one _ _ Hcwd).
      rewrite (isAbsolute_app t ("/" ++ f) Ht), split_sep, Hsplit.
      destruct (Path.isAbsolute t); rewrite ?app_assoc, fold_left_app;
        cbn [fold_left]; now rewrite !step_name. }
  cbn [rev]. symmetry.
  assert (names (rev S)) as HT by now apply Forall_rev.
  rewrite (shape_child _ a HT).
  apply shape_child. apply Forall_app. split; [exact HT|].
  constructor; [exact Ha|constructor].
Qed.

(** The two halves of a scoped name under a directory. *)
Lemma scoped_child (T : list string) (a b : string) :
  names T -> is_name a = true ->
  is_name b = true -> Str.slashfree b = true ->
  Path.dirname (child (child ("/" ++ String.concat "/" T) a) b)
  = child ("/" ++ String.concat "/" T) a
  /\ Path.basename (child (child ("/" ++ String.concat "/" T) a) b) = b.
Proof.
  intros HT Ha Hb Hsb.
  assert (names (T ++ [a])) as HTa.
  { apply Forall_app. split; [exact HT|]. constructor; [exact Ha|constructor]. }
  rewrite (shape_child T a HT). split.
  - exact (dirname_child _ b HTa Hb Hsb).
  - exact (basename_child _ b HTa Hb Hsb).
Qed.

(** A directory is not its own child. *)
Lemma child_differs (R a : string) : a <> "" -> child R a <> R.
Proof.
  intros Ha. unfold child. destruct (String.eqb_spec R "/") as [->|_].
  - destruct a; [congruence|discriminate].
  - induction R as [|c R IH]; [discriminate|].
    intros H. apply IH. now injection H.
Qed.

(** A file of a resolved directory is found the same way through the
    directory as given. *)
Lemma join_resolved (cwd d f : string) :
  Path.isAbsolute cwd = true -> is_name f = true -> Str.slashfree f = true ->
  Path.join [Path.resolve cwd [d]; f] = Path.resolve cwd [Path.join [d; f]].
Proof.
  intros Hcwd Hn Hs. rewrite (resolve_join_name cwd d f Hcwd Hn Hs).
  destruct (resolve_shape cwd [d] Hcwd) as (T & HT & HTs & HR).
  set (R := Path.resolve cwd [d]) in *.
  assert (Path.join [R; f] = Path.resolve cwd [Path.join [R; f]]) as ->.
  { assert (R <> "") as HRne by (rewrite HR; discriminate).
    rewrite (join_two R f HRne (name_not_empty f Hn)).
    rewrite (resolve_normalize _ _ Hcwd), (resolve_one _ _ Hcwd).
    set (p := R ++ "/" ++ f).
    assert (Path.isAbsolute p = true) as Hp
      by (unfold p; rewrite HR; reflexivity).
    assert (Path.trailingSeparator p = false) as Ht.
    { unfold Path.trailingSeparator, p.
      change (R ++ "/" ++ f) with (R ++ String "/" f).
      rewrite <- (append_char_r R "/" f), slice_last_app
        by exact (name_not_empty f Hn).
      apply String.eqb_neq. intros Hl.
      exact (slice_last_slashfree f Hs (name_not_empty f Hn) Hl). }
    unfold Path.normalize, Path.normalizeString.
    rewrite (absolute_not_empty _ Hp), Hp, Ht. cbn [negb]. unfold Path.segments.
    destruct (Str.is_empty
                (String.concat "/" (rev (fold_left (Path.step false) (Path.split p) []))))
      eqn:Hc; [|reflexivity].
    apply is_empty_iff in Hc. now rewrite Hc. }
  rewrite (resolve_join_name cwd R f Hcwd Hn Hs). unfold R.
  now rewrite (resolve_idempotent _ _ Hcwd).
Qed.

(** The working directory is where ["."] resolves to. *)
Lemma resolve_dot (cwd : string) :
  Path.isAbsolute cwd = true -> Path.resolve cwd ["."] = Path.resolve cwd [].
Proof.
  intros Hcwd. rewrite (resolve_one _ _ Hcwd). unfold Path.resolve.
  cbn [rev app Path.gather Path.isAbsolute Path.isSep].
  rewrite (absolute_not_empty _ Hcwd), Hcwd. cbn [negb].
  unfold Path.normalizeString, Path.segments.
  replace (Path.isSep "." ) with false by reflexivity.
  change (cwd ++ "/" ++ "") with (cwd ++ "/" ++ "").
  now rewrite split_sep, !fold_left_app.
Qed.

End PathFacts.

(** ** Facts about the command *)

Module BundleFacts.

Import Bundle.
Import PathFacts.
Local Open Scope bundle_scope.

Section Laws.

Context {E : Env}.

Lemma prepend_nil {A} (r : Result E A) : prepend [] r = r.
Proof. destruct r as [[o w] t]. reflexivity. Qed.

Lemma prepend_prepend {A} (t1 t2 : list Step) (r : Result E A) :
  prepend t1 (prepend t2 r) = prepend (t1 ++ t2) r.
Proof. unfold prepend. cbn [outcome world_of trace fst snd]. now rewrite app_assoc. Qed.

Lemma bind_value {A B} (m : M E A) (k : A -> M E B) (w w1 : World E)
      (a : A) (t1 : list Step) :
  m w = (inr a, w1, t1) -> bind m k w = prepend t1 (k a w1).
Proof. intros H. unfold bind. now rewrite H. Qed.

Lemma bind_error {A B} (m : M E A) (k : A -> M E B) (w w1 : World E)
      (e : Exn) (t1 : list Step) :
  m w = (inl e, w1, t1) -> bind m k w = (inl e, w1, t1).
Proof. intros H. unfold bind. now rewrite H. Qed.

Lemma bind_ret {A B} (a : A) (k : A -> M E B) (w : World E) :
  bind (ret a) k w = k a w.
Proof. unfold bind, ret. apply prepend_nil. Qed.

Lemma bind_say {B} (c : Call) (k : unit -> M E B) (w : World E) :
  bind (say c) k w = prepend [Completed c None] (k tt w).
Proof. reflexivity. Qed.

Lemma bind_detach {B} (c : Call) (f : World E -> option Exn * World E)
      (k : unit -> M E B) (w : World E) :
  bind (detach c f) k w = prepend [Detached c (fst (f w))] (k tt (snd (f w))).
Proof. reflexivity. Qed.

Lemma bind_assoc {A B C} (m : M E A) (k : A -> M E B) (h : B -> M E C)
      (w : World E) :
  bind (bind m k) h w = bind m (fun a => bind (k a) h) w.
Proof.
  unfold bind. destruct (m w) as [[[e|a] w1] t1]; [reflexivity|].
  destruct (k a w1) as [[[e|b] w2] t2]; cbn [prepend outcome world_of trace fst snd];
    [reflexivity|].
  now rewrite prepend_prepend.
Qed.

Lemma observe_value {A} (c : Call) (f : World E -> Exn + A) (w : World E) (a : A) :
  f w = inr a -> observe c f w = (inr a, w, [Completed c None]).
Proof. intros H. unfold observe. now rewrite H. Qed.

Lemma observe_error {A} (c : Call) (f : World E -> Exn + A) (w : World E) (e : Exn) :
  f w = inl e -> observe c f w = (inl e, w, [Completed c (Some e)]).
Proof. intros H. unfold observe. now rewrite H. Qed.

Lemma await_done (c : Call) (f : World E -> option Exn * World E) (w w1 : World E) :
  f w = (None, w1) -> await c f w = (inr tt, w1, [Completed c None]).
Proof. intros H. unfold await. now rewrite H. Qed.

Lemma await_failed (c : Call) (f : World E -> option Exn * World E)
      (w w1 : World E) (e : Exn) :
  f w = (Some e, w1) -> await c f w = (inl e, w1, [Completed c (Some e)]).
Proof. intros H. unfold await. now rewrite H. Qed.

(** *** Where [output] comes from *)

Lemma derive_value (d : string) (w : World E) (m : PackageJson) :
  readJSON E w (packageFile d) = inr m ->
  deriveOutputFileName d w
  = (inr (derivedName m), w, [Completed (ReadJSON (packageFile d)) None]).
Proof.
  intros H. unfold deriveOutputFileName.
  erewrite bind_value by (apply observe_value; exact H).
  reflexivity.
Qed.

Lemma derive_error (d : string) (w : World E) (e : Exn) :
  readJSON E w (packageFile d) = inl e ->
  deriveOutputFileName d w
  = (inl e, w, [Completed (ReadJSON (packageFile d)) (Some e)]).
Proof.
  intros H. unfold deriveOutputFileName.
  erewrite bind_error by (apply observe_error; exact H).
  reflexivity.
Qed.

Lemma output_of_directory (args : Args) (flags : Flags) (w : World E)
      (st : Stats) (m : PackageJson) :
  pathExists E w (output flags) = true ->
  lstat E w (output flags) = inr st -> isDirectory st = true ->
  readJSON E w (packageFile (directory args)) = inr m ->
  resolveOutput args flags w
  = (inr (Path.resolve (cwd E) [Path.join [output flags; derivedName m]]), w,
     [Completed (PathExists (output flags)) None;
      Completed (Lstat (output flags)) None;
      Completed (ReadJSON (packageFile (directory args))) None]).
Proof.
  intros Hex Hst Hdir Hm. unfold resolveOutput.
  erewrite bind_value by (apply observe_value; reflexivity). rewrite Hex.
  erewrite bind_value by (apply observe_value; exact Hst). rewrite Hdir.
  erewrite bind_value by (apply derive_value; exact Hm).
  reflexivity.
Qed.

Lemma output_of_file (args : Args) (flags : Flags) (w : World E) (st : Stats) :
  pathExists E w (output flags) = true ->
  lstat E w (output flags) = inr st -> isDirectory st = false ->
  resolveOutput args flags w
  = (inr (output flags), w,
     [Completed (PathExists (output flags)) None;
      Completed (Lstat (output flags)) None]).
Proof.
  intros Hex Hst Hdir. unfold resolveOutput.
  erewrite bind_value by (apply observe_value; reflexivity). rewrite Hex.
  erewrite bind_value by (apply observe_value; exact Hst). rewrite Hdir.
  reflexivity.
Qed.

Lemma output_of_missing (args : Args) (flags : Flags) (w : World E) :
  pathExists E w (output flags) = false ->
  resolveOutput args flags w
  = prepend [Completed (PathExists (output flags)) None]
      ((let dir := fst (splitTarget (output flags)) in
        dirFound <- observe (PathExists dir) (fun w => inr (pathExists E w dir)) ;;
        (if negb dirFound then confirmDir dir else ret tt) ;;;
        finishOutput args dir (snd (splitTarget (output flags)))) w).
Proof.
  intros Hex. unfold resolveOutput.
  erewrite bind_value by (apply observe_value; reflexivity). rewrite Hex.
  now destruct (splitTarget (output flags)).
Qed.

Lemma output_in_place (args : Args) (flags : Flags) (w : World E) :
  pathExists E w (output flags) = false ->
  pathExists E w (fst (splitTarget (output flags))) = true ->
  resolveOutput args flags w
  = prepend [Completed (PathExists (output flags)) None;
             Completed (PathExists (fst (splitTarget (output flags)))) None]
      (finishOutput args (fst (splitTarget (output flags)))
         (snd (splitTarget (output flags))) w).
Proof.
  intros Hex Hdir. rewrite (output_of_missing _ _ _ Hex). cbv zeta.
  erewrite bind_value by (apply observe_value; reflexivity). rewrite Hdir.
  cbn [negb]. rewrite bind_ret, prepend_prepend. reflexivity.
Qed.

Lemma output_declined (args : Args) (flags : Flags) (w : World E) :
  let dir := fst (splitTarget (output flags)) in
  pathExists E w (output flags) = false ->
  pathExists E w dir = false ->
  prompt E w (question dir) true = inr false ->
  resolveOutput args flags w
  = (inl (CLIError ("Output directory " ++ dir ++ " not found.")), w,
     [Completed (PathExists (output flags)) None;
      Completed (PathExists dir) None;
      Completed (Prompt (question dir) true) None]).
Proof.
  intros dir Hex Hdir Hno. rewrite (output_of_missing _ _ _ Hex). cbv zeta.
  fold dir.
  erewrite bind_value by (apply observe_value; reflexivity). rewrite Hdir.
  cbn [negb]. unfold confirmDir. cbv zeta.
  erewrite bind_error; [reflexivity|].
  erewrite bind_value by (apply observe_value; exact Hno).
  reflexivity.
Qed.

Lemma output_confirmed (args : Args) (flags : Flags) (w : World E) :
  let dir := fst (splitTarget (output flags)) in
  pathExists E w (output flags) = false ->
  pathExists E w dir = false ->
  prompt E w (question dir) true = inr true ->
  resolveOutput args flags w
  = prepend [Completed (PathExists (output flags)) None;
             Completed (PathExists dir) None;
             Completed (Prompt (question dir) true) None;
             Detached (Mkdirp dir) (fst (mkdirp E dir w))]
      (finishOutput args dir (snd (splitTarget (output flags)))
         (snd (mkdirp E dir w))).
Proof.
  intros dir Hex Hdir Hyes. rewrite (output_of_missing _ _ _ Hex). cbv zeta.
  fold dir.
  erewrite bind_value by (apply observe_value; reflexivity). rewrite Hdir.
  cbn [negb]. unfold confirmDir. cbv zeta.
  rewrite bind_assoc.
  erewrite bind_value by (apply observe_value; exact Hyes).
  cbv iota. rewrite bind_detach, !prepend_prepend. reflexivity.
Qed.

Lemma bind_prepend {A B} (m m' : M E A) (k : A -> M E B) (w w1 : World E)
      (t : list Step) :
  m w = prepend t (m' w1) -> bind m k w = prepend t (bind m' k w1).
Proof.
  intros H. unfold bind. rewrite H.
  destruct (m' w1) as [[[e|a] w2] t2]; cbn [prepend outcome world_of trace fst snd];
    [reflexivity|].
  now rewrite <- prepend_prepend.
Qed.

Lemma splitTarget_dir (target : string) :
  Str.slice_last target = "/" -> splitTarget target = (target, None).
Proof. intros H. unfold splitTarget. now rewrite H. Qed.

Lemma splitTarget_file (target : string) :
  Str.slice_last target <> "/" ->
  splitTarget target = (Path.dirname target, Some (Path.basename target)).
Proof.
  intros H. unfold splitTarget. apply String.eqb_neq in H. now rewrite H.
Qed.

Lemma finish_named (args : Args) (dir f : string) (w : World E) :
  finishOutput args dir (Some f) w = (inr (Path.join [dir; f]), w, []).
Proof. unfold finishOutput. now rewrite bind_ret. Qed.

Lemma finish_derived (args : Args) (dir : string) (w : World E) (m : PackageJson) :
  readJSON E w (packageFile (directory args)) = inr m ->
  finishOutput args dir None w
  = (inr (Path.join [dir; derivedName m]), w,
     [Completed (ReadJSON (packageFile (directory args))) None]).
Proof.
  intros Hm. unfold finishOutput.
  erewrite bind_value by (apply derive_value; exact Hm). reflexivity.
Qed.

(** *** From [output] to the pipeline *)

Lemma run_checked (args : Args) (flags : Flags) (w : World E) (st : Stats) :
  lstat E w (directory args) = inr st -> isDirectory st = true ->
  run args flags w
  = prepend [Completed (Lstat (directory args)) None]
      ((output <- resolveOutput args flags ;;
        pipeline (Path.resolve (cwd E) [directory args])
          (Path.resolve (cwd E) [output])) w).
Proof.
  intros Hst Hdir. unfold run.
  erewrite bind_value by (apply observe_value; exact Hst). rewrite Hdir.
  cbn [negb]. now rewrite bind_ret.
Qed.

Lemma run_value (args : Args) (flags : Flags) (w w1 : World E) (st : Stats)
      (out : string) (t1 : list Step) :
  lstat E w (directory args) = inr st -> isDirectory st = true ->
  resolveOutput args flags w = (inr out, w1, t1) ->
  run args flags w
  = prepend (Completed (Lstat (directory args)) None :: t1)
      (pipeline (Path.resolve (cwd E) [directory args])
         (Path.resolve (cwd E) [out]) w1).
Proof.
  intros Hst Hdir Hout. rewrite (run_checked _ _ _ _ Hst Hdir).
  erewrite bind_value by exact Hout. now rewrite prepend_prepend.
Qed.

Lemma run_error (args : Args) (flags : Flags) (w w1 : World E) (st : Stats)
      (e : Exn) (t1 : list Step) :
  lstat E w (directory args) = inr st -> isDirectory st = true ->
  resolveOutput args flags w = (inl e, w1, t1) ->
  run args flags w = (inl e, w1, Completed (Lstat (directory args)) None :: t1).
Proof.
  intros Hst Hdir Hout. rewrite (run_checked _ _ _ _ Hst Hdir).
  erewrite bind_error by exact Hout. reflexivity.
Qed.

(** *** Calls and their order *)

(** Running the command on an unknown world: the blocks are unfolded, and
    each answer of the environment is split into its cases. *)
Ltac exec_env :=
  match goal with
  | |- context [yarn_install E ?d ?w] =>
      destruct (yarn_install E d w) as [[?e|] ?w]
  | |- context [readJSON E ?w ?f] => destruct (readJSON E w f) as [?e|?m]
  | |- context [lstat E ?w ?f] => destruct (lstat E w f) as [?e|[[|]]]
  | |- context [prompt E ?w ?q ?d] => destruct (prompt E w q d) as [?e|[|]]
  | |- context [main ?m] => destruct (main m)
  | |- context [bundleMain ?m] => destruct (bundleMain m)
  | |- context [ensureDir E ?d ?w] =>
      destruct (ensureDir E d w) as [[?e|] ?w]
  | |- context [runBuild E ?a ?b ?c ?w] =>
      destruct (runBuild E a b c w) as [[?e|] ?w]
  | |- context [yarn_pack E ?a ?b ?w] =>
      destruct (yarn_pack E a b w) as [[?e|] ?w]
  | |- context [splitTarget ?t] => destruct (splitTarget t) as [?dir [?f|]]
  end.

Ltac exec_fs :=
  match goal with
  | |- context [pathExists E ?w ?f] => destruct (pathExists E w f)
  end.

Ltac exec_step :=
  cbv beta iota zeta delta
    [run resolveOutput confirmDir finishOutput deriveOutputFileName
     pipeline install readManifest compile pack coalesceM validateString
     error bind say await detach observe ret throw prepend
     trace outcome world_of fst snd app negb isDirectory Js.coalesce].

Ltac exec := exec_step; repeat (exec_env; exec_step).

Ltac exec_all := exec_step; repeat (first [exec_env | exec_fs]; exec_step).

Lemma pipeline_ordered (d o : string) (w : World E) :
  ordered [] (trace (pipeline d o w)).
Proof.
  exec; cbv beta iota delta [ordered build_prepared];
    repeat split; try (eexists; reflexivity);
    cbv beta iota delta [In]; auto 30.
Qed.

Lemma ordered_at (seen t pre post : list Step) (s : Step) :
  ordered seen t -> t = (pre ++ s :: post)%list ->
  build_prepared (rev pre ++ seen)%list s.
Proof.
  revert seen t. induction pre as [|x pre IH]; intros seen t Ht ->.
  - exact (proj1 Ht).
  - destruct Ht as [_ Ht]. cbn [rev]. rewrite <- app_assoc.
    exact (IH (x :: seen) _ Ht eq_refl).
Qed.

(** In the pipeline the compiler is called only after a successful
    installation, right after its output directory has been ensured, and
    with the name of a file as its entry. *)
Lemma pipeline_build_prepared (d o : string) (w : World E)
      (pre post : list Step) (d' : string) (entry : Js.value) (out : string)
      (r : option Exn) :
  trace (pipeline d o w) = (pre ++ Completed (RunBuild d' entry out) r :: post)%list ->
  In (Completed (YarnInstall d') None) pre
  /\ (exists pre', pre = (pre' ++ [Completed (EnsureDir (Path.dirname out)) None])%list)
  /\ (exists file, entry = Js.Str file).
Proof.
  intros Ht.
  pose proof (ordered_at _ _ _ _ _ (pipeline_ordered d o w) Ht)
    as (Hin & (rest & Hlast) & Hentry).
  rewrite app_nil_r in Hin, Hlast. split; [|split].
  - now apply in_rev.
  - exists (rev rest). rewrite <- (rev_involutive pre), Hlast. reflexivity.
  - exact Hentry.
Qed.

(** Before the pipeline no stage is started. *)
Lemma output_calls (args : Args) (flags : Flags) (w : World E) :
  Forall (fun s => is_stage (call_of s) = false)
    (trace (resolveOutput args flags w)).
Proof. exec_all; repeat constructor. Qed.

Lemma split_after (P : Step -> Prop) (t0 t1 pre post : list Step) (s : Step) :
  Forall P t0 -> ~ P s ->
  (t0 ++ t1 = pre ++ s :: post)%list ->
  exists p1, pre = (t0 ++ p1)%list /\ t1 = (p1 ++ s :: post)%list.
Proof.
  revert pre. induction t0 as [|x t0 IH]; intros pre H0 Hs Heq.
  - now exists pre.
  - inversion H0 as [|? ? Hx H0']; subst.
    destruct pre as [|y pre]; cbn [app] in Heq.
    + injection Heq as -> _. contradiction.
    + injection Heq as -> Heq.
      destruct (IH pre H0' Hs Heq) as (p1 & -> & ->). now exists p1.
Qed.

(** A run is the calls that settle [output], without any stage, followed
    by the pipeline if [output] was settled. *)
Lemma run_trace (args : Args) (flags : Flags) (w : World E) :
  exists t0,
    Forall (fun s => is_stage (call_of s) = false) t0
    /\ (trace (run args flags w) = t0
        \/ exists (o : string) (w1 : World E),
            trace (run args flags w)
            = (t0 ++ trace (pipeline (Path.resolve (cwd E) [directory args]) o w1))%list).
Proof.
  destruct (lstat E w (directory args)) as [e|[isdir]] eqn:Hst.
  - exists [Completed (Lstat (directory args)) (Some e)].
    split; [repeat constructor|]. left. unfold run.
    erewrite bind_error by (apply observe_error; exact Hst). reflexivity.
  - destruct isdir.
    + pose proof (output_calls args flags w) as Hcalls.
      destruct (resolveOutput args flags w) as [[[e|out] w1] t1] eqn:Hout.
      * exists (Completed (Lstat (directory args)) None :: t1).
        split; [constructor; [reflexivity|exact Hcalls]|]. left.
        now rewrite (run_error args flags w w1 _ e t1 Hst eq_refl Hout).
      * exists (Completed (Lstat (directory args)) None :: t1).
        split; [constructor; [reflexivity|exact Hcalls]|]. right.
        exists (Path.resolve (cwd E) [out]), w1.
        now rewrite (run_value args flags w w1 _ out t1 Hst eq_refl Hout).
    + exists [Completed (Lstat (directory args)) None].
      split; [repeat constructor|]. left. unfold run.
      erewrite bind_value by (apply observe_value; exact Hst). reflexivity.
Qed.

Lemma run_build_prepared (args : Args) (flags : Flags) (w : World E)
      (pre post : list Step) (d : string) (entry : Js.value) (out : string)
      (r : option Exn) :
  trace (run args flags w) = (pre ++ Completed (RunBuild d entry out) r :: post)%list ->
  In (Completed (YarnInstall d) None) pre
  /\ (exists pre', pre = (pre' ++ [Completed (EnsureDir (Path.dirname out)) None])%list)
  /\ (exists file, entry = Js.Str file).
Proof.
  intros Ht. destruct (run_trace args flags w) as (t0 & H0 & [Hrun | (o & w1 & Hrun)]).
  - exfalso. rewrite Hrun in Ht. rewrite Ht in H0.
    apply Forall_app in H0 as [_ H0]. inversion H0 as [|? ? Hs _].
    discriminate Hs.
  - rewrite Hrun in Ht.
    assert (~ is_stage (call_of (Completed (RunBuild d entry out) r)) = false)
      as Hstage by discriminate.
    destruct (split_after _ t0 _ pre post _ H0 Hstage Ht) as (p1 & -> & Hp).
    destruct (pipeline_build_prepared _ _ _ _ _ _ _ _ _ Hp)
      as (Hin & (pre' & ->) & Hentry).
    split; [apply in_or_app; now right|]. split; [|exact Hentry].
    exists (t0 ++ pre')%list. now rewrite app_assoc.
Qed.

(** *** Failures *)

Lemma faithful_ret {A} (a : A) : Faithful E (ret a).
Proof. intros w. constructor. Qed.

Lemma faithful_throw {A} (e : Exn) : Faithful E (@throw E A e).
Proof. intros w. left. constructor. Qed.

Lemma faithful_say (c : Call) : Faithful E (say c).
Proof. intros w. repeat constructor. Qed.

Lemma faithful_detach (c : Call) (f : World E -> option Exn * World E) :
  Faithful E (detach c f).
Proof. intros w. repeat constructor. Qed.

Lemma faithful_observe {A} (c : Call) (f : World E -> Exn + A) :
  Faithful E (observe c f).
Proof.
  intros w. unfold observe. destruct (f w) as [e|a].
  - right. exists [], c. split; [reflexivity|constructor].
  - repeat constructor.
Qed.

Lemma faithful_await (c : Call) (f : World E -> option Exn * World E) :
  Faithful E (await c f).
Proof.
  intros w. unfold await. destruct (f w) as [[e|] w1].
  - right. exists [], c. split; [reflexivity|constructor].
  - repeat constructor.
Qed.

Lemma faithful_bind {A B} (m : M E A) (k : A -> M E B) :
  Faithful E m -> (forall a, Faithful E (k a)) -> Faithful E (bind m k).
Proof.
  intros Hm Hk w. unfold bind. specialize (Hm w).
  destruct (m w) as [[[e|a] w1] t1]; [exact Hm|].
  specialize (Hk a w1). unfold faithful in *.
  cbn [prepend outcome world_of trace fst snd] in *.
  destruct (k a w1) as [[[e|b] w2] t2]; cbn [fst snd] in *.
  - destruct Hk as [Hq | (pre & c & -> & Hq)].
    + left. now apply Forall_app.
    + right. exists (t1 ++ pre)%list, c.
      split; [now rewrite app_assoc|now apply Forall_app].
  - now apply Forall_app.
Qed.

Ltac faithful_step :=
  first
    [ apply faithful_bind; [|intro]
    | apply faithful_ret
    | apply faithful_throw
    | apply faithful_say
    | apply faithful_observe
    | apply faithful_await
    | apply faithful_detach
    | match goal with
      | |- Faithful _ (if ?b then _ else _) => destruct b
      | |- Faithful _ (match ?x with _ => _ end) => destruct x
      end ].

Lemma faithful_derive (d : string) : Faithful E (deriveOutputFileName d).
Proof. unfold deriveOutputFileName. repeat faithful_step. Qed.

Lemma faithful_output (args : Args) (flags : Flags) :
  Faithful E (resolveOutput args flags).
Proof.
  unfold resolveOutput, confirmDir, finishOutput, error.
  repeat first [apply faithful_derive | faithful_step].
Qed.

Lemma faithful_pipeline (d o : string) : Faithful E (pipeline d o).
Proof.
  unfold pipeline, install, readManifest, compile, pack, coalesceM, validateString.
  repeat faithful_step.
Qed.

Lemma faithful_run (args : Args) (flags : Flags) : Faithful E (run args flags).
Proof.
  unfold run, error.
  repeat first [apply faithful_output | apply faithful_pipeline | faithful_step
               | progress cbv zeta].
Qed.

Lemma quiet_until (pre0 pre post : list Step) (x y : Step) :
  quiet pre0 -> failure_of y <> None ->
  (pre0 ++ [x] = pre ++ y :: post)%list -> post = [] /\ x = y.
Proof.
  revert pre. induction pre0 as [|a pre0 IH]; intros pre Hq Hy Heq.
  - destruct pre as [|b pre]; cbn [app] in Heq.
    + injection Heq as -> <-. now split.
    + injection Heq as _ Heq. now destruct pre.
  - inversion Hq as [|? ? Ha Hq']; subst.
    destruct pre as [|b pre]; cbn [app] in Heq.
    + injection Heq as -> _. contradiction.
    + injection Heq as _ Heq. exact (IH pre Hq' Hy Heq).
Qed.

(** A call that failed is the last call of the run, and what it raised is
    what the run ends with. *)
Lemma faithful_stop {A} (r : Result E A) (pre post : list Step)
      (c : Call) (e : Exn) :
  faithful r ->
  trace r = (pre ++ Completed c (Some e) :: post)%list ->
  post = [] /\ outcome r = inl e.
Proof.
  intros Hr Ht.
  assert (forall t, quiet t -> t = (pre ++ Completed c (Some e) :: post)%list -> False)
    as Hno.
  { intros t Hq ->. apply Forall_app in Hq as [_ Hq].
    inversion Hq as [|? ? Hx _]. discriminate Hx. }
  unfold faithful in Hr. destruct (outcome r) as [e0|a].
  - destruct Hr as [Hq | (pre0 & c0 & Ht0 & Hq)]; [now destruct (Hno _ Hq Ht)|].
    rewrite Ht0 in Ht.
    assert (failure_of (Completed c (Some e)) <> None) as Hfail by discriminate.
    destruct (quiet_until pre0 pre post _ _ Hq Hfail Ht) as [-> Heq].
    injection Heq as _ ->. now split.
  - now destruct (Hno _ Hr Ht).
Qed.

(** *** The pipeline up to the compiler *)

Lemma pipeline_installed (d o : string) (w w1 : World E) :
  yarn_install E d w = (None, w1) ->
  pipeline d o w
  = prepend [Completed (Log (bundling d o)) None;
             Completed (ActionStart "Installing dependencies") None;
             Completed (YarnInstall d) None;
             Completed (ActionStop None) None]
      ((' (entry, out) <- readManifest d ;;
        compile d entry out ;;;
        pack d o ;;;
        say (Log (bundled d o))) w1).
Proof.
  intros Hin. unfold pipeline, install.
  rewrite bind_say, bind_assoc, bind_say, bind_assoc.
  erewrite bind_value by (apply await_done; exact Hin).
  now rewrite bind_say, !prepend_prepend.
Qed.

Lemma manifest_default (d : string) (w : World E) (m : PackageJson) :
  readJSON E w (packageFile d) = inr m ->
  main m = Js.Undefined \/ main m = Js.Null ->
  let index :=
    if pathExists E w (Path.join [d; "index.tsx"])
    then "index.tsx" else "index.jsx" in
  readManifest d w
  = (inr (Js.Str index, Path.resolve (cwd E) [d; chosenBundleMain m]), w,
     [Completed (ActionStart "Reading package.json") None;
      Completed (ReadJSON (packageFile d)) None;
      Completed (PathExists (Path.join [d; "index.tsx"])) None;
      Completed (ActionStop (Some (manifestRead index m))) None]).
Proof.
  intros Hm Hmain index. unfold readManifest, manifestRead, chosenBundleMain.
  exec_step. rewrite Hm. exec_step.
  destruct Hmain as [-> | ->]; destruct (bundleMain m); reflexivity.
Qed.

Lemma manifest_declared (d : string) (w : World E) (m : PackageJson) (s : string) :
  readJSON E w (packageFile d) = inr m ->
  main m = Js.Str s ->
  readManifest d w
  = (inr (Js.Str s, Path.resolve (cwd E) [d; chosenBundleMain m]), w,
     [Completed (ActionStart "Reading package.json") None;
      Completed (ReadJSON (packageFile d)) None;
      Completed (ActionStop (Some (manifestRead s m))) None]).
Proof.
  intros Hm Hmain. unfold readManifest, manifestRead, chosenBundleMain.
  exec_step. rewrite Hm. exec_step.
  rewrite Hmain; destruct (bundleMain m); reflexivity.
Qed.

(** *** The whole of a run *)

(** The four ways a run goes: the input cannot be looked at; it is not a
    directory; [output] cannot be settled; the pipeline is entered. *)
Lemma run_split (args : Args) (flags : Flags) (w : World E) :
  let dir := directory args in
  let settled := resolveOutput args flags w in
  (exists e, lstat E w dir = inl e
             /\ run args flags w = (inl e, w, [Completed (Lstat dir) (Some e)]))
  \/ (exists st, lstat E w dir = inr st /\ isDirectory st = false
                 /\ run args flags w
                    = (inl (CLIError ("Plugin source " ++ dir
                                      ++ " is not a directory.")),
                       w, [Completed (Lstat dir) None]))
  \/ (exists e, outcome settled = inl e
                /\ run args flags w
                   = (inl e, world_of settled,
                      Completed (Lstat dir) None :: trace settled))
  \/ (exists out, outcome settled = inr out
                  /\ run args flags w
                     = prepend (Completed (Lstat dir) None :: trace settled)
                         (pipeline (Path.resolve (cwd E) [dir])
                            (Path.resolve (cwd E) [out]) (world_of settled))).
Proof.
  intros dir settled.
  destruct (lstat E w dir) as [e|[isdir]] eqn:Hst.
  - left. exists e. split; [reflexivity|]. unfold run.
    erewrite bind_error by (apply observe_error; exact Hst). reflexivity.
  - destruct isdir.
    + right. right. unfold settled.
      destruct (resolveOutput args flags w) as [[[e|out] w1] t1] eqn:Hout.
      * left. exists e. split; [reflexivity|].
        exact (run_error args flags w w1 _ e t1 Hst eq_refl Hout).
      * right. exists out. split; [reflexivity|].
        exact (run_value args flags w w1 _ out t1 Hst eq_refl Hout).
    + right. left. exists {| isDirectory := false |}.
      split; [reflexivity|]. split; [reflexivity|]. unfold run.
      erewrite bind_value by (apply observe_value; exact Hst). reflexivity.
Qed.

Lemma each_at (P : list Step -> Step -> Prop) (seen t pre post : list Step)
      (s : Step) :
  each P seen t -> t = (pre ++ s :: post)%list -> P (rev pre ++ seen)%list s.
Proof.
  revert seen t. induction pre as [|x pre IH]; intros seen t Ht ->.
  - exact (proj1 Ht).
  - destruct Ht as [_ Ht]. cbn [rev]. rewrite <- app_assoc.
    exact (IH (x :: seen) _ Ht eq_refl).
Qed.

(** The pipeline, step by step, and how it ends. *)
Lemma pipeline_staged (d o : string) (w : World E) :
  staged_result d o (pipeline d o w).
Proof.
  exec;
    cbv beta iota delta [staged_result each staged fresh forallb existsb negb
                         same_stage call_of pack_ok succeeded outcome trace
                         fst snd andb orb];
    repeat split; try (do 2 eexists; cbv beta iota delta [In]; eauto 30).
Qed.

(** The answers of the operator and of the file system are kept. *)
Ltac exec_asked :=
  match goal with
  | |- context [prompt E ?w ?q ?d] =>
      destruct (prompt E w q d) as [?e|[|]] eqn:?Hasked
  | |- context [pathExists E ?w ?f] =>
      destruct (pathExists E w f) eqn:?Hfound
  end.

(** The way to [output], step by step. *)
Lemma output_prompted (args : Args) (flags : Flags) (w : World E) :
  each (prompted w) [] (trace (resolveOutput args flags w)).
Proof.
  exec_step; repeat (first [exec_asked | exec_env]; exec_step);
    cbv beta iota delta [each prompted is_stage];
    repeat split; try assumption; try (eexists; reflexivity);
    try (do 2 eexists; split; reflexivity).
Qed.

Lemma pack_ok_stage (s : Step) : pack_ok s = true -> is_stage (call_of s) = true.
Proof. destruct s as [[] []|]; simpl; congruence. Qed.

Lemma same_stage_stage (c1 c2 : Call) :
  same_stage c1 c2 = true -> is_stage c1 = true.
Proof. destruct c1, c2; simpl; congruence. Qed.

Lemma no_pack_before (t : list Step) :
  Forall (fun s => is_stage (call_of s) = false) t -> existsb pack_ok t = false.
Proof.
  induction 1 as [|s t Hs _ IH]; [reflexivity|]. simpl. rewrite IH.
  destruct (pack_ok s) eqn:Hp; [|reflexivity].
  apply pack_ok_stage in Hp. congruence.
Qed.

Lemma prelude_calls (args : Args) (flags : Flags) (w : World E) :
  Forall (fun s => is_stage (call_of s) = false)
    (Completed (Lstat (directory args)) None :: trace (resolveOutput args flags w)).
Proof. constructor; [reflexivity|apply output_calls]. Qed.

(** A stage of a run is a stage of its pipeline. *)
Lemma stage_in_pipeline (args : Args) (flags : Flags) (w : World E)
      (pre post : list Step) (s : Step) :
  trace (run args flags w) = (pre ++ s :: post)%list ->
  is_stage (call_of s) = true ->
  exists out p1,
    outcome (resolveOutput args flags w) = inr out
    /\ pre = (Completed (Lstat (directory args)) None
                :: trace (resolveOutput args flags w) ++ p1)%list
    /\ trace (pipeline (Path.resolve (cwd E) [directory args])
                (Path.resolve (cwd E) [out])
                (world_of (resolveOutput args flags w)))
       = (p1 ++ s :: post)%list.
Proof.
  intros Ht Hs.
  assert (forall t0, Forall (fun x => is_stage (call_of x) = false) t0 ->
                     t0 <> (pre ++ s :: post)%list) as Hno.
  { intros t0 H0 ->. apply Forall_app in H0 as [_ H0].
    inversion H0 as [|? ? Hx _]. congruence. }
  pose proof (prelude_calls args flags w) as Hpre.
  destruct (run_split args flags w)
    as [(e & _ & Hrun) | [(st & _ & _ & Hrun) | [(e & _ & Hrun) | (out & Hout & Hrun)]]];
    rewrite Hrun in Ht; cbn [trace snd prepend] in Ht.
  - exfalso. apply (Hno [Completed (Lstat (directory args)) (Some e)]);
      [repeat constructor|exact Ht].
  - exfalso. apply (Hno [Completed (Lstat (directory args)) None]);
      [repeat constructor|exact Ht].
  - exfalso. exact (Hno _ Hpre Ht).
  - assert (~ is_stage (call_of s) = false) as Hstage by congruence.
    destruct (split_after _ _ _ pre post s Hpre Hstage Ht) as (p1 & -> & Hp).
    exists out, p1. split; [exact Hout|]. split; [reflexivity|exact Hp].
Qed.

(** *** Every step of a run *)

Lemma each_app (P : list Step -> Step -> Prop) (seen a b : list Step) :
  each P seen a -> each P (rev a ++ seen)%list b -> each P seen (a ++ b)%list.
Proof.
  revert seen. induction a as [|x a IH]; intros seen Ha Hb; [exact Hb|].
  destruct Ha as [Hx Ha]. split; [exact Hx|]. apply IH; [exact Ha|].
  cbn [rev] in Hb. rewrite <- app_assoc in Hb. exact Hb.
Qed.

Lemma prompted_on_request (w : World E) (extra seen t : list Step) :
  each (prompted w) seen t -> each (on_request w) (seen ++ extra)%list t.
Proof.
  revert seen. induction t as [|s t IH]; intros seen Ht; [exact I|].
  destruct Ht as [Hs Ht]. split; [|exact (IH (s :: seen) Ht)].
  destruct s as [c r|c r]; destruct c; cbn in Hs |- *;
    try exact I; try contradiction.
  - destruct Hs as (Hd & dir & rest & Hq & ->). split; [exact Hd|].
    exists dir, (rest ++ extra)%list. split; [exact Hq|reflexivity].
  - destruct Hs as ((rest & ->) & Hmissing & Hyes).
    split; [|split; assumption]. exists (rest ++ extra)%list. reflexivity.
Qed.

Lemma staged_on_request (w : World E) (d o : string) (seen seen' t : list Step) :
  each (staged d o) seen t -> each (on_request w) seen' t.
Proof.
  revert seen seen'. induction t as [|s t IH]; intros seen seen' Ht; [exact I|].
  destruct Ht as [Hs Ht]. split; [|exact (IH _ _ Ht)].
  destruct s as [c r|c r]; destruct c; cbn in Hs |- *;
    try exact I; contradiction.
Qed.

(** A run, step by step. *)
Lemma run_on_request (args : Args) (flags : Flags) (w : World E) :
  each (on_request w) [] (trace (run args flags w)).
Proof.
  pose proof (prompted_on_request w [Completed (Lstat (directory args)) None] _ _
                (output_prompted args flags w)) as Hp.
  cbn [app] in Hp.
  destruct (run_split args flags w)
    as [(e & _ & Hrun) | [(st & _ & _ & Hrun) | [(e & _ & Hrun) | (out & _ & Hrun)]]];
    rewrite Hrun.
  - split; exact I.
  - split; exact I.
  - split; [exact I|exact Hp].
  - split; [exact I|]. apply each_app; [exact Hp|].
    exact (staged_on_request w _ _ [] _ _ (proj1 (pipeline_staged _ _ _))).
Qed.

(** *** The compilation *)

(** What the compilation and the rest of the pipeline call first:
    [ensureDir] of the directory of [out]; if that fails nothing more,
    and otherwise the compiler for [out], in the world [ensureDir]
    left. *)
Lemma compile_calls (d o : string) (entry : Js.value) (out : string)
      (w : World E) :
  let rest := (compile d entry out ;;; pack d o ;;; say (Log (bundled d o))) w in
  let ensured := ensureDir E (Path.dirname out) w in
  exists post,
    trace rest
    = Completed (ActionStart "Compiling") None
        :: Completed (EnsureDir (Path.dirname out)) (fst ensured) :: post
    /\ match fst ensured with
       | Some e => post = [] /\ outcome rest = inl e
       | None =>
           exists post',
             post = Completed (RunBuild d entry out)
                      (fst (runBuild E d entry out (snd ensured))) :: post'
       end.
Proof.
  cbv zeta. exec_step.
  destruct (ensureDir E (Path.dirname out) w) as [[e|] w2]; exec_step.
  - eexists. split; [reflexivity|]. split; reflexivity.
  - destruct (runBuild E d entry out w2) as [[e|] w3]; exec_step.
    + eexists. split; [reflexivity|]. eexists. reflexivity.
    + destruct (yarn_pack E d o w3) as [[e|] w4]; exec_step;
        (eexists; split; [reflexivity|]; eexists; reflexivity).
Qed.

Lemma fresh_prelude (c : Call) (t : list Step) :
  Forall (fun s => is_stage (call_of s) = false) t -> fresh c t = true.
Proof.
  induction 1 as [|x t Hx _ IH]; [reflexivity|].
  unfold fresh in *. cbn [forallb]. rewrite IH, andb_true_r.
  destruct (same_stage (call_of x) c) eqn:Hs; [|reflexivity].
  apply same_stage_stage in Hs. congruence.
Qed.

Lemma fresh_app (c : Call) (a b : list Step) :
  fresh c (a ++ b)%list = fresh c a && fresh c b.
Proof. apply forallb_app. Qed.

Lemma fresh_rev (c : Call) (a : list Step) : fresh c (rev a) = fresh c a.
Proof. apply forallb_rev. Qed.

(** A stage of a run, with the steps of the pipeline before it. *)
Lemma run_staged (args : Args) (flags : Flags) (w : World E)
      (pre post : list Step) (s : Step) :
  trace (run args flags w) = (pre ++ s :: post)%list ->
  is_stage (call_of s) = true ->
  exists out p1,
    outcome (resolveOutput args flags w) = inr out
    /\ pre = (Completed (Lstat (directory args)) None
                :: trace (resolveOutput args flags w) ++ p1)%list
    /\ staged (Path.resolve (cwd E) [directory args])
         (Path.resolve (cwd E) [out]) (rev p1) s.
Proof.
  intros Ht Hs.
  destruct (stage_in_pipeline args flags w pre post s Ht Hs)
    as (out & p1 & Hout & Hpre & Hp).
  exists out, p1. split; [exact Hout|]. split; [exact Hpre|].
  pose proof (each_at _ _ _ _ _ _ (proj1 (pipeline_staged _ _ _)) Hp) as H.
  now rewrite app_nil_r in H.
Qed.

Lemma succeeded_prepend {A} (t : list Step) (r : Result E A) :
  succeeded (prepend t r) = succeeded r.
Proof. reflexivity. Qed.

Lemma run_succeeded (args : Args) (flags : Flags) (w : World E) :
  succeeded (run args flags w) = existsb pack_ok (trace (run args flags w)).
Proof.
  pose proof (no_pack_before _ (prelude_calls args flags w)) as Hp.
  destruct (run_split args flags w)
    as [(e & _ & Hrun) | [(st & _ & _ & Hrun) | [(e & _ & Hrun) | (out & _ & Hrun)]]];
    rewrite Hrun.
  - reflexivity.
  - reflexivity.
  - symmetry. exact Hp.
  - rewrite succeeded_prepend. cbn [trace snd prepend].
    change (snd ?r) with (trace r).
    rewrite existsb_app, Hp. cbn [orb].
    exact (proj2 (pipeline_staged _ _ _)).
Qed.

Lemma output_unreadable (args : Args) (flags : Flags) (w : World E)
      (st : Stats) (e : Exn) :
  pathExists E w (output flags) = true ->
  lstat E w (output flags) = inr st -> isDirectory st = true ->
  readJSON E w (packageFile (directory args)) = inl e ->
  resolveOutput args flags w
  = (inl e, w,
     [Completed (PathExists (output flags)) None;
      Completed (Lstat (output flags)) None;
      Completed (ReadJSON (packageFile (directory args))) (Some e)]).
Proof.
  intros Hex Hst Hdir Hm. unfold resolveOutput.
  erewrite bind_value by (apply observe_value; reflexivity). rewrite Hex.
  erewrite bind_value by (apply observe_value; exact Hst). rewrite Hdir.
  erewrite bind_error by (apply derive_error; exact Hm).
  reflexivity.
Qed.

Lemma finish_unreadable (args : Args) (dir : string) (w : World E) (e : Exn) :
  readJSON E w (packageFile (directory args)) = inl e ->
  finishOutput args dir None w
  = (inl e, w, [Completed (ReadJSON (packageFile (directory args))) (Some e)]).
Proof.
  intros Hm. unfold finishOutput.
  erewrite bind_error by (apply derive_error; exact Hm). reflexivity.
Qed.

(** *** What is logged *)

Lemma ends_with (t : list Step) (x y : Step) :
  t <> [] -> last t x = y -> exists pre, t = (pre ++ [y])%list.
Proof.
  intros Ht <-. exists (removelast t). now apply app_removelast_last.
Qed.

Lemma ends_with_inv (t pre : list Step) (x y : Step) :
  t = (pre ++ [y])%list -> last t x = y.
Proof. intros ->. apply last_last. Qed.

Lemma pipeline_logged (d o : string) (w : World E) :
  logged d o (pipeline d o w).
Proof.
  exec; cbv beta iota delta [logged succeeded outcome trace fst snd];
    (split; [eexists; reflexivity|]);
    (split;
     [ first [ discriminate
             | intros _;
               apply (ends_with _ (Completed (Log "") None));
               [discriminate|reflexivity] ]
     | first [ reflexivity
             | intros [pre Hpre]; exfalso;
               apply (ends_with_inv _ _ (Completed (Log "") None)) in Hpre;
               cbn [last] in Hpre; discriminate Hpre ] ]).
Qed.

Lemma last_app_r (a b : list Step) (x : Step) :
  b <> [] -> last (a ++ b)%list x = last b x.
Proof.
  intros Hb. induction a as [|y a IH]; [reflexivity|].
  cbn [app last]. rewrite IH.
  destruct (a ++ b)%list eqn:Hab; [|reflexivity].
  apply app_eq_nil in Hab as [_ ->]. contradiction.
Qed.

(** *** Errors of the command's own *)

Lemma blameless_ret (own : Exn -> Prop) {A} (a : A) :
  blameless E own (ret a).
Proof. intros w e H. discriminate H. Qed.

Lemma blameless_throw (own : Exn -> Prop) {A} (e : Exn) :
  own e -> blameless E own (@throw E A e).
Proof. intros He w e' H _. injection H as <-. exact He. Qed.

Lemma blameless_say (own : Exn -> Prop) (c : Call) : blameless E own (say c).
Proof. intros w e H. discriminate H. Qed.

Lemma blameless_detach (own : Exn -> Prop) (c : Call)
      (f : World E -> option Exn * World E) :
  blameless E own (detach c f).
Proof. intros w e H. discriminate H. Qed.

Lemma blameless_observe (own : Exn -> Prop) {A} (c : Call)
      (f : World E -> Exn + A) :
  blameless E own (observe c f).
Proof.
  intros w e. unfold observe. destruct (f w) as [e'|a]; [|discriminate].
  intros _ Hq. inversion Hq as [|? ? Hx _]. discriminate Hx.
Qed.

Lemma blameless_await (own : Exn -> Prop) (c : Call)
      (f : World E -> option Exn * World E) :
  blameless E own (await c f).
Proof.
  intros w e. unfold await. destruct (f w) as [[e'|] w1]; [|discriminate].
  intros _ Hq. inversion Hq as [|? ? Hx _]. discriminate Hx.
Qed.

Lemma blameless_bind (own : Exn -> Prop) {A B} (m : M E A) (k : A -> M E B) :
  blameless E own m -> (forall a, blameless E own (k a)) ->
  blameless E own (bind m k).
Proof.
  intros Hm Hk w e. unfold bind. specialize (Hm w).
  destruct (m w) as [[[e1|a] w1] t1].
  { intros Ho Hq. apply (Hm e); [|exact Hq].
    cbn [outcome fst] in *. now injection Ho as <-. }
  specialize (Hk a w1 e). unfold prepend.
  destruct (k a w1) as [[o w2] t2]. cbn [outcome world_of trace fst snd] in *.
  intros Ho Hq. apply Forall_app in Hq as [_ Hq]. exact (Hk Ho Hq).
Qed.

Lemma validate_default (v : Js.value) (s : string) :
  exists s', @validateString E (Js.coalesce v (Js.Str s)) = ret s'.
Proof. destruct v; eexists; reflexivity. Qed.

Ltac blameless_step :=
  first
    [ apply blameless_bind; [|intro]
    | apply blameless_ret
    | apply blameless_say
    | apply blameless_observe
    | apply blameless_await
    | apply blameless_detach
    | match goal with
      | |- blameless _ _ (if ?b then _ else _) => destruct b
      | |- blameless _ _ (match ?x with _ => _ end) => destruct x
      end ].

Lemma blameless_derive (own : Exn -> Prop) (d : string) :
  blameless E own (deriveOutputFileName d).
Proof. unfold deriveOutputFileName. repeat blameless_step. Qed.

Lemma blameless_output (args : Args) (flags : Flags) :
  blameless E (own_error args) (resolveOutput args flags).
Proof.
  unfold resolveOutput, confirmDir, finishOutput, error.
  repeat first
    [ apply blameless_derive
    | apply blameless_throw; right; eexists; reflexivity
    | blameless_step ].
Qed.

Lemma blameless_manifest (own : Exn -> Prop) (d : string) :
  blameless E own (readManifest d).
Proof.
  unfold readManifest, coalesceM.
  repeat first
    [ match goal with
      | |- blameless _ _ (bind (validateString (Js.coalesce ?v (Js.Str ?s))) _) =>
          let s' := fresh "s" in
          let H := fresh "H" in
          destruct (validate_default v s) as [s' H]; rewrite H
      end
    | blameless_step ].
Qed.

Lemma blameless_pipeline (own : Exn -> Prop) (d o : string) :
  blameless E own (pipeline d o).
Proof.
  unfold pipeline, install, compile, pack.
  repeat first [apply blameless_manifest | blameless_step].
Qed.

Lemma blameless_run (args : Args) (flags : Flags) :
  blameless E (own_error args) (run args flags).
Proof.
  unfold run, error.
  repeat first
    [ apply blameless_output
    | apply blameless_pipeline
    | apply blameless_throw; left; reflexivity
    | blameless_step
    | progress cbv zeta ].
Qed.

(** *** The derived name *)

Lemma dashed_is_name (a t : string) : Path.is_name (a ++ "-" ++ t) = true.
Proof.
  destruct (step_cases (a ++ "-" ++ t)) as [H|[H|[H|H]]]; [| | |exact H];
    exfalso; destruct a as [|c1 [|c2 [|c3 a]]]; discriminate H.
Qed.

Lemma derivedName_is_name (m : PackageJson) : Path.is_name (derivedName m) = true.
Proof. unfold derivedName. apply dashed_is_name. Qed.

End Laws.

End BundleFacts.

(** ** The behaviour of the command *)

Import Bundle.
Import BundleFacts.
Local Open Scope bundle_scope.

Lemma no_stage_cons (s : Step) (t : list Step) :
  is_stage (call_of s) = false -> no_stage t -> no_stage (s :: t).
Proof. intros Hs Ht x [<-|Hx]; [exact Hs|now apply Ht]. Qed.

Lemma no_stage_nil : no_stage [].
Proof. intros s []. Qed.

(** C6: when the input path exists and is not a directory, the run stops
    with an error right after looking at it: no installation, compilation
    or packing is started, and the world is as it was. *)
Theorem input_must_be_a_directory
        (E : Env) (args : Args) (flags : Flags) (w : World E) (st : Stats) :
  lstat E w (directory args) = inr st ->
  isDirectory st = false ->
  run args flags w
  = (inl (CLIError ("Plugin source " ++ directory args ++ " is not a directory.")),
     w, [Completed (Lstat (directory args)) None])
  /\ no_stage (trace (run args flags w)).
Proof.
  intros Hst Hdir.
  assert (run args flags w
          = (inl (CLIError ("Plugin source " ++ directory args
                            ++ " is not a directory.")),
             w, [Completed (Lstat (directory args)) None])) as Hrun.
  { unfold run.
    erewrite bind_value by (apply observe_value; exact Hst). rewrite Hdir.
    reflexivity. }
  split; [exact Hrun|]. rewrite Hrun.
  apply no_stage_cons; [reflexivity|apply no_stage_nil].
Qed.

Lemma input_must_be_a_directory_witness :
  lstat Demo.env Demo.ready "old.tgz" = inr {| isDirectory := false |}
  /\ run (E := Demo.env) Demo.a_file (Demo.to ".") Demo.ready
     = (inl (CLIError "Plugin source old.tgz is not a directory."), Demo.ready,
        [Completed (Lstat "old.tgz") None])
  /\ no_stage (Demo.steps Demo.a_file (Demo.to ".") Demo.ready).
Proof.
  split; [reflexivity|].
  exact (input_must_be_a_directory Demo.env Demo.a_file (Demo.to ".") Demo.ready
           {| isDirectory := false |} eq_refl eq_refl).
Defined.

(** C5: when the directory the archive should go to does not exist and the
    operator answers no, the run stops with an error; nothing was installed,
    compiled or packed, and the world is as it was. *)
Theorem declined_creation_is_fatal
        (E : Env) (args : Args) (flags : Flags) (w : World E) (st : Stats) :
  let dir := fst (splitTarget (output flags)) in
  lstat E w (directory args) = inr st -> isDirectory st = true ->
  pathExists E w (output flags) = false ->
  pathExists E w dir = false ->
  prompt E w (question dir) true = inr false ->
  run args flags w
  = (inl (CLIError ("Output directory " ++ dir ++ " not found.")), w,
     [Completed (Lstat (directory args)) None;
      Completed (PathExists (output flags)) None;
      Completed (PathExists dir) None;
      Completed (Prompt (question dir) true) None])
  /\ no_stage (trace (run args flags w)).
Proof.
  intros dir Hst Hisdir Hex Hdir Hno.
  pose proof (run_error args flags w w st _ _ Hst Hisdir
                (output_declined args flags w Hex Hdir Hno)) as Hrun.
  fold dir in Hrun. split; [exact Hrun|]. rewrite Hrun.
  repeat (apply no_stage_cons; [reflexivity|]). apply no_stage_nil.
Qed.

Lemma declined_creation_is_fatal_witness :
  pathExists Demo.env Demo.refusing "new/x/y.tgz" = false
  /\ pathExists Demo.env Demo.refusing "new/x" = false
  /\ run (E := Demo.env) Demo.the_args (Demo.to "new/x/y.tgz") Demo.refusing
     = (inl (CLIError "Output directory new/x not found."), Demo.refusing,
        [Completed (Lstat "plugin") None;
         Completed (PathExists "new/x/y.tgz") None;
         Completed (PathExists "new/x") None;
         Completed (Prompt "Output directory 'new/x' doesn't exist. Create it?"
                      true) None])
  /\ no_stage (Demo.steps Demo.the_args (Demo.to "new/x/y.tgz") Demo.refusing).
Proof.
  split; [reflexivity|]. split; [reflexivity|].
  exact (declined_creation_is_fatal Demo.env Demo.the_args
           (Demo.to "new/x/y.tgz") Demo.refusing {| isDirectory := true |}
           eq_refl eq_refl eq_refl eq_refl eq_refl).
Defined.

(** C2: when the output target exists and is a directory, the archive goes
    to that directory joined with the derived name, resolved to an absolute
    path; the derived name is [<name>-<version>.tgz]. *)
Theorem archive_in_existing_directory
        (E : Env) (args : Args) (flags : Flags) (w : World E)
        (st st' : Stats) (m : PackageJson) :
  Path.isAbsolute (cwd E) = true ->
  lstat E w (directory args) = inr st -> isDirectory st = true ->
  pathExists E w (output flags) = true ->
  lstat E w (output flags) = inr st' -> isDirectory st' = true ->
  readJSON E w (packageFile (directory args)) = inr m ->
  let outputFile :=
    Path.resolve (cwd E) [Path.join [output flags; derivedName m]] in
  run args flags w
  = prepend [Completed (Lstat (directory args)) None;
             Completed (PathExists (output flags)) None;
             Completed (Lstat (output flags)) None;
             Completed (ReadJSON (packageFile (directory args))) None]
      (pipeline (Path.resolve (cwd E) [directory args]) outputFile w)
  /\ Path.isAbsolute outputFile = true
  /\ (forall n v, name m = Js.Str n -> version m = Js.Str v ->
                  derivedName m = n ++ "-" ++ v ++ ".tgz").
Proof.
  intros Hcwd Hst Hisdir Hex Hst' Hisdir' Hm outputFile. split; [|split].
  - rewrite (run_value args flags w w st _ _ Hst Hisdir
               (output_of_directory args flags w st' m Hex Hst' Hisdir' Hm)).
    now rewrite (PathFacts.resolve_idempotent _ _ Hcwd).
  - unfold outputFile.
    destruct (PathFacts.resolve_shape (cwd E)
                [Path.join [output flags; derivedName m]] Hcwd)
      as (T & _ & _ & ->).
    reflexivity.
  - intros n v Hn Hv. unfold derivedName. rewrite Hn, Hv.
    now destruct n.
Qed.

Lemma archive_in_existing_directory_witness :
  pathExists Demo.env Demo.ready "./dist/" = true
  /\ lstat Demo.env Demo.ready "./dist/" = inr {| isDirectory := true |}
  /\ run (E := Demo.env) Demo.the_args (Demo.to "./dist/") Demo.ready
     = prepend [Completed (Lstat "plugin") None;
                Completed (PathExists "./dist/") None;
                Completed (Lstat "./dist/") None;
                Completed (ReadJSON "plugin/package.json") None]
         (pipeline (E := Demo.env) "/home/dev/plugin"
            "/home/dev/dist/my-plugin-1.2.3.tgz" Demo.ready).
Proof.
  split; [reflexivity|]. split; [reflexivity|].
  exact (proj1 (archive_in_existing_directory Demo.env Demo.the_args
                  (Demo.to "./dist/") Demo.ready
                  {| isDirectory := true |} {| isDirectory := true |}
                  Demo.my_plugin eq_refl eq_refl eq_refl eq_refl eq_refl
                  eq_refl eq_refl)).
Defined.

(** C3: a target that does not exist and ends with the separator is taken
    as a directory: once the operator has agreed to its creation, the
    archive goes inside it under the derived name.  For a target that does
    not exist, the name is derived exactly when the target ends with the
    separator. *)
Theorem archive_in_new_directory
        (E : Env) (args : Args) (flags : Flags) (w : World E)
        (st : Stats) (m : PackageJson) :
  let target := output flags in
  let w1 := snd (mkdirp E target w) in
  lstat E w (directory args) = inr st -> isDirectory st = true ->
  pathExists E w target = false ->
  Str.slice_last target = "/" ->
  prompt E w (question target) true = inr true ->
  readJSON E w1 (packageFile (directory args)) = inr m ->
  run args flags w
  = prepend [Completed (Lstat (directory args)) None;
             Completed (PathExists target) None;
             Completed (PathExists target) None;
             Completed (Prompt (question target) true) None;
             Detached (Mkdirp target) (fst (mkdirp E target w));
             Completed (ReadJSON (packageFile (directory args))) None]
      (pipeline (Path.resolve (cwd E) [directory args])
         (Path.resolve (cwd E) [Path.join [target; derivedName m]]) w1)
  /\ (forall t : string,
        snd (splitTarget t) = None <-> Str.slice_last t = "/").
Proof.
  intros target w1 Hst Hisdir Hex Hsep Hyes Hm. split.
  - pose proof (output_confirmed args flags w) as Hout. cbv zeta in Hout.
    fold target in Hout. rewrite (splitTarget_dir target Hsep) in Hout.
    cbn [fst snd] in Hout. specialize (Hout Hex Hex Hyes). fold w1 in Hout.
    rewrite (finish_derived args target w1 m Hm) in Hout.
    exact (run_value args flags w w1 st _ _ Hst Hisdir Hout).
  - intros t. unfold splitTarget.
    destruct (String.eqb_spec (Str.slice_last t) "/"); cbn [snd];
      split; congruence.
Qed.

Lemma archive_in_new_directory_witness :
  pathExists Demo.env Demo.ready "new/" = false
  /\ run (E := Demo.env) Demo.the_args (Demo.to "new/") Demo.ready
     = prepend [Completed (Lstat "plugin") None;
                Completed (PathExists "new/") None;
                Completed (PathExists "new/") None;
                Completed (Prompt "Output directory 'new/' doesn't exist. Create it?"
                             true) None;
                Detached (Mkdirp "new/") None;
                Completed (ReadJSON "plugin/package.json") None]
         (pipeline (E := Demo.env) "/home/dev/plugin"
            "/home/dev/new/my-plugin-1.2.3.tgz"
            (Demo.with_dir "new/" Demo.ready)).
Proof.
  split; [reflexivity|].
  exact (proj1 (archive_in_new_directory Demo.env Demo.the_args
                  (Demo.to "new/") Demo.ready
                  {| isDirectory := true |} Demo.my_plugin
                  eq_refl eq_refl eq_refl eq_refl eq_refl eq_refl)).
Defined.

(** C4: a target that names a file is used as given, made absolute, with no
    derived name: both when the file exists already and when it does not,
    has no trailing separator, and its directory exists. *)
Theorem archive_at_named_file
        (E : Env) (args : Args) (flags : Flags) (w : World E) (st : Stats) :
  let target := output flags in
  Path.isAbsolute (cwd E) = true ->
  lstat E w (directory args) = inr st -> isDirectory st = true ->
  (forall st' : Stats,
      pathExists E w target = true ->
      lstat E w target = inr st' -> isDirectory st' = false ->
      run args flags w
      = prepend [Completed (Lstat (directory args)) None;
                 Completed (PathExists target) None;
                 Completed (Lstat target) None]
          (pipeline (Path.resolve (cwd E) [directory args])
             (Path.resolve (cwd E) [target]) w))
  /\ (pathExists E w target = false ->
      Str.slice_last target <> "/" ->
      pathExists E w (Path.dirname target) = true ->
      run args flags w
      = prepend [Completed (Lstat (directory args)) None;
                 Completed (PathExists target) None;
                 Completed (PathExists (Path.dirname target)) None]
          (pipeline (Path.resolve (cwd E) [directory args])
             (Path.resolve (cwd E) [target]) w)).
Proof.
  intros target Hcwd Hst Hisdir. split.
  - intros st' Hex Hst' Hfile.
    exact (run_value args flags w w st _ _ Hst Hisdir
             (output_of_file args flags w st' Hex Hst' Hfile)).
  - intros Hex Hsep Hdir.
    pose proof (output_in_place args flags w Hex) as Hout.
    fold target in Hout. rewrite (splitTarget_file target Hsep) in Hout.
    cbn [fst snd] in Hout. specialize (Hout Hdir).
    rewrite finish_named in Hout. cbn [prepend outcome world_of trace fst snd] in Hout.
    rewrite (run_value args flags w w st _ _ Hst Hisdir Hout).
    rewrite PathFacts.resolve_join_dirname_basename; [reflexivity|exact Hcwd|].
    unfold Path.trailingSeparator. now apply String.eqb_neq.
Qed.

Lemma archive_at_named_file_witness :
  (pathExists Demo.env Demo.ready "old.tgz" = true
   /\ run (E := Demo.env) Demo.the_args (Demo.to "old.tgz") Demo.ready
      = prepend [Completed (Lstat "plugin") None;
                 Completed (PathExists "old.tgz") None;
                 Completed (Lstat "old.tgz") None]
          (pipeline (E := Demo.env) "/home/dev/plugin" "/home/dev/old.tgz"
             Demo.ready))
  /\ (pathExists Demo.env Demo.ready "dist/../fresh.tgz" = false
      /\ pathExists Demo.env Demo.ready "dist/.." = true
      /\ run (E := Demo.env) Demo.the_args (Demo.to "dist/../fresh.tgz") Demo.ready
         = prepend [Completed (Lstat "plugin") None;
                    Completed (PathExists "dist/../fresh.tgz") None;
                    Completed (PathExists "dist/..") None]
             (pipeline (E := Demo.env) "/home/dev/plugin" "/home/dev/fresh.tgz"
                Demo.ready)).
Proof.
  split.
  - split; [reflexivity|].
    exact (proj1 (archive_at_named_file Demo.env Demo.the_args
                    (Demo.to "old.tgz") Demo.ready {| isDirectory := true |}
                    eq_refl eq_refl eq_refl)
             {| isDirectory := false |} eq_refl eq_refl eq_refl).
  - split; [reflexivity|]. split; [reflexivity|].
    refine (proj2 (archive_at_named_file Demo.env Demo.the_args
                     (Demo.to "dist/../fresh.tgz") Demo.ready
                     {| isDirectory := true |} eq_refl eq_refl eq_refl)
              eq_refl _ eq_refl).
    discriminate.
Defined.

(** C10: a manifest without a name, or with an empty one, gives the derived
    name [-<version>.tgz]; reading the manifest is all that happens. *)
Theorem nameless_manifest_derives
        (E : Env) (inputDirectory : string) (w : World E) (m : PackageJson) :
  readJSON E w (packageFile inputDirectory) = inr m ->
  name m = Js.Undefined \/ name m = Js.Str "" ->
  deriveOutputFileName inputDirectory w
  = (inr ("-" ++ Js.toString (version m) ++ ".tgz"), w,
     [Completed (ReadJSON (packageFile inputDirectory)) None]).
Proof.
  intros Hm Hname. rewrite (derive_value inputDirectory w m Hm).
  unfold derivedName. now destruct Hname as [-> | ->].
Qed.

Lemma nameless_manifest_derives_witness :
  name Demo.unnamed = Js.Undefined
  /\ deriveOutputFileName (E := Demo.env) "plugin"
       (Demo.plugin Demo.unnamed true [])
     = (inr "-0.4.1.tgz", Demo.plugin Demo.unnamed true [],
        [Completed (ReadJSON "plugin/package.json") None]).
Proof.
  split; [reflexivity|].
  exact (nameless_manifest_derives Demo.env "plugin"
           (Demo.plugin Demo.unnamed true []) Demo.unnamed eq_refl
           (or_introl eq_refl)).
Defined.

(** C1, as the code has it: when the manifest declares no main file, the
    entry handed to the compiler is [index.tsx] if that file exists in the
    input directory once the dependencies are installed, and [index.jsx]
    otherwise, so also when neither file exists; [index.jsx] is never
    looked for.  In no run is the compiler called with an undefined
    entry. *)
Theorem entry_defaults_to_index
        (E : Env) (d o : string) (w w1 : World E) (m : PackageJson) :
  yarn_install E d w = (None, w1) ->
  readJSON E w1 (packageFile d) = inr m ->
  main m = Js.Undefined \/ main m = Js.Null ->
  let tsx := Path.join [d; "index.tsx"] in
  let index := if pathExists E w1 tsx then "index.tsx" else "index.jsx" in
  pipeline d o w
  = prepend [Completed (Log (bundling d o)) None;
             Completed (ActionStart "Installing dependencies") None;
             Completed (YarnInstall d) None;
             Completed (ActionStop None) None;
             Completed (ActionStart "Reading package.json") None;
             Completed (ReadJSON (packageFile d)) None;
             Completed (PathExists tsx) None;
             Completed (ActionStop (Some (manifestRead index m))) None]
      ((compile d (Js.Str index) (Path.resolve (cwd E) [d; chosenBundleMain m]) ;;;
        pack d o ;;;
        say (Log (bundled d o))) w1)
  /\ (forall (args : Args) (flags : Flags) (w0 : World E) pre d' entry out r post,
         trace (run args flags w0)
         = (pre ++ Completed (RunBuild d' entry out) r :: post)%list ->
         entry <> Js.Undefined).
Proof.
  intros Hin Hm Hmain tsx index. split.
  - rewrite (pipeline_installed d o w w1 Hin).
    erewrite bind_value by exact (manifest_default d w1 m Hm Hmain).
    now rewrite prepend_prepend.
  - intros args flags w0 pre d' entry out r post Ht.
    destruct (run_build_prepared args flags w0 pre post d' entry out r Ht)
      as (_ & _ & file & ->).
    discriminate.
Qed.

Lemma entry_defaults_to_index_witness :
  pathExists Demo.env (Demo.bare Demo.my_plugin) "/home/dev/plugin/index.tsx"
  = false
  /\ exists pre,
      pipeline (E := Demo.env) "/home/dev/plugin" "/home/dev/a.tgz"
        (Demo.bare Demo.my_plugin)
      = prepend pre
          ((compile (E := Demo.env) "/home/dev/plugin" (Js.Str "index.jsx")
              "/home/dev/plugin/dist/index.js" ;;;
            pack "/home/dev/plugin" "/home/dev/a.tgz" ;;;
            say (Log "✅  Bundled /home/dev/plugin to /home/dev/a.tgz"))
             (Demo.bare Demo.my_plugin)).
Proof.
  split; [reflexivity|]. eexists.
  exact (proj1 (entry_defaults_to_index Demo.env "/home/dev/plugin"
                  "/home/dev/a.tgz" (Demo.bare Demo.my_plugin)
                  (Demo.bare Demo.my_plugin) Demo.my_plugin eq_refl eq_refl
                  (or_introl eq_refl))).
Defined.

(** C1 as stated fails: with no declared main file and neither
    [index.tsx] nor [index.jsx] in the input directory, the compiler is
    called with the entry [index.jsx], and never with an undefined one. *)
Lemma entry_undefined_counterexample :
  main Demo.my_plugin = Js.Undefined
  /\ pathExists Demo.env (Demo.bare Demo.my_plugin) "/home/dev/plugin/index.tsx"
     = false
  /\ pathExists Demo.env (Demo.bare Demo.my_plugin) "/home/dev/plugin/index.jsx"
     = false
  /\ In (Completed (RunBuild "/home/dev/plugin" (Js.Str "index.jsx")
                      "/home/dev/plugin/dist/index.js") None)
        (Demo.steps Demo.the_args (Demo.to "a.tgz") (Demo.bare Demo.my_plugin))
  /\ (forall d out res,
         ~ In (Completed (RunBuild d Js.Undefined out) res)
              (Demo.steps Demo.the_args (Demo.to "a.tgz")
                 (Demo.bare Demo.my_plugin))).
Proof.
  split; [reflexivity|]. split; [reflexivity|].
  split; [reflexivity|]. split.
  - vm_compute. tauto.
  - intros d out res H. vm_compute in H.
    repeat (destruct H as [H|H]; [discriminate H|]). exact H.
Qed.



(** C8: the bundle is written to the manifest's [bundleMain] if it has
    one, to [dist/index.js] otherwise, resolved under the input directory
    (a declared absolute path is resolved to itself).  Once the
    dependencies are installed and the manifest is read, the first call
    that prepares or runs the compilation is [ensureDir] of the
    directory of that path; if it fails nothing more is done, and
    otherwise the very next call is the compiler, told to write to that
    path, in the world [ensureDir] left.  In every run the call of the
    compiler comes right after a successful [ensureDir] of the directory
    of its output. *)
Theorem bundle_goes_under_input
        (E : Env) (d o : string) (w w1 : World E) (m : PackageJson) :
  yarn_install E d w = (None, w1) ->
  readJSON E w1 (packageFile d) = inr m ->
  let declared :=
    match bundleMain m with
    | Js.Str s => s
    | _ => "dist/index.js"
    end in
  let out := Path.resolve (cwd E) [d; declared] in
  let ensured := ensureDir E (Path.dirname out) w1 in
  (exists pre entry post,
      trace (pipeline d o w)
      = (pre ++ Completed (EnsureDir (Path.dirname out)) (fst ensured) :: post)%list
      /\ (forall s, In s pre ->
                    (forall d' entry' out', call_of s <> RunBuild d' entry' out')
                    /\ (forall dir, call_of s <> EnsureDir dir))
      /\ match fst ensured with
         | Some e => post = [] /\ outcome (pipeline d o w) = inl e
         | None =>
             exists post',
               post = Completed (RunBuild d entry out)
                        (fst (runBuild E d entry out (snd ensured))) :: post'
         end)
  /\ (Path.isAbsolute declared = true -> out = Path.resolve (cwd E) [declared])
  /\ (forall (args : Args) (flags : Flags) (w0 : World E) pre d' entry out' r post,
         trace (run args flags w0)
         = (pre ++ Completed (RunBuild d' entry out') r :: post)%list ->
         exists pre',
           pre = (pre' ++ [Completed (EnsureDir (Path.dirname out')) None])%list).
Proof.
  intros Hin Hm declared out ensured. split; [|split].
  - assert (exists pre0 entry,
               pipeline d o w
               = prepend pre0
                   ((compile d entry out ;;; pack d o ;;; say (Log (bundled d o)))
                      w1)
               /\ forall s, In s pre0 ->
                            (forall d' entry' out',
                                call_of s <> RunBuild d' entry' out')
                            /\ (forall dir, call_of s <> EnsureDir dir))
      as (pre0 & entry & Hrun & Hpre0).
    { rewrite (pipeline_installed d o w w1 Hin).
      destruct (main m) as [| |s] eqn:Hmain.
      - eexists. eexists. split.
        + erewrite bind_value
            by exact (manifest_default d w1 m Hm (or_introl Hmain)).
          rewrite prepend_prepend. reflexivity.
        + intros s Hs. cbn [app In] in Hs.
          repeat (destruct Hs as [<-|Hs]; [split; discriminate|]). destruct Hs.
      - eexists. eexists. split.
        + erewrite bind_value
            by exact (manifest_default d w1 m Hm (or_intror Hmain)).
          rewrite prepend_prepend. reflexivity.
        + intros s Hs. cbn [app In] in Hs.
          repeat (destruct Hs as [<-|Hs]; [split; discriminate|]). destruct Hs.
      - eexists. eexists. split.
        + erewrite bind_value by exact (manifest_declared d w1 m s Hm Hmain).
          rewrite prepend_prepend. reflexivity.
        + intros s0 Hs. cbn [app In] in Hs.
          repeat (destruct Hs as [<-|Hs]; [split; discriminate|]). destruct Hs. }
    destruct (compile_calls d o entry out w1) as (post & Hpost & Hcase).
    fold ensured in Hpost, Hcase.
    exists (pre0 ++ [Completed (ActionStart "Compiling") None])%list, entry, post.
    rewrite Hrun. split; [|split].
    + transitivity
        (pre0 ++ trace ((compile d entry out ;;; pack d o ;;;
                         say (Log (bundled d o))) w1))%list;
        [reflexivity|].
      rewrite Hpost, <- app_assoc. reflexivity.
    + intros s Hs. apply in_app_or in Hs as [Hs|[<-|[]]];
        [exact (Hpre0 s Hs)|split; discriminate].
    + exact Hcase.
  - intros Habs. now apply PathFacts.resolve_absolute_last.
  - intros args flags w0 pre d' entry out' r post Ht.
    exact (proj1 (proj2 (run_build_prepared args flags w0 pre post d' entry
                           out' r Ht))).
Qed.

Lemma bundle_goes_under_input_witness :
  bundleMain Demo.custom = Js.Str "lib/main.js"
  /\ exists pre entry post,
      trace (pipeline (E := Demo.env) "/home/dev/plugin" "/home/dev/a.tgz"
               (Demo.plugin Demo.custom true []))
      = (pre ++ Completed (EnsureDir "/home/dev/plugin/lib") None
           :: Completed (RunBuild "/home/dev/plugin" entry
                           "/home/dev/plugin/lib/main.js") None
           :: post)%list.
Proof.
  split; [reflexivity|].
  destruct (proj1 (bundle_goes_under_input Demo.env "/home/dev/plugin"
                     "/home/dev/a.tgz" (Demo.plugin Demo.custom true [])
                     (Demo.plugin Demo.custom true []) Demo.custom
                     eq_refl eq_refl))
    as (pre & entry & post & Ht & _ & post' & Hpost).
  exists pre, entry, post'. rewrite Ht, Hpost. reflexivity.
Defined.

(** ** Further properties of the command *)

(** X1: when the input path cannot be looked at ([lstat] is rejected, as
    for a path that does not exist), the run ends with that very
    exception; the look is the only call made and the world is as it
    was. *)
Theorem unreadable_input_is_fatal
        (E : Env) (args : Args) (flags : Flags) (w : World E) (e : Exn) :
  lstat E w (directory args) = inl e ->
  run args flags w
  = (inl e, w, [Completed (Lstat (directory args)) (Some e)]).
Proof.
  intros Hst. unfold run.
  erewrite bind_error by (apply observe_error; exact Hst). reflexivity.
Qed.

Lemma unreadable_input_is_fatal_witness :
  lstat Demo.env Demo.ready "nowhere" = inl (Rejected "ENOENT")
  /\ run (E := Demo.env) Demo.nowhere (Demo.to ".") Demo.ready
     = (inl (Rejected "ENOENT"), Demo.ready,
        [Completed (Lstat "nowhere") (Some (Rejected "ENOENT"))]).
Proof.
  split; [reflexivity|].
  exact (unreadable_input_is_fatal Demo.env Demo.nowhere (Demo.to ".")
           Demo.ready (Rejected "ENOENT") eq_refl).
Defined.

(** X2: when the target is an existing directory and the manifest of the
    plugin cannot be read, the run ends with the exception of the read
    while the name of the archive is derived: nothing is installed,
    compiled or packed, and the world is as it was. *)
Theorem unreadable_manifest_is_fatal
        (E : Env) (args : Args) (flags : Flags) (w : World E)
        (st st' : Stats) (e : Exn) :
  lstat E w (directory args) = inr st -> isDirectory st = true ->
  pathExists E w (output flags) = true ->
  lstat E w (output flags) = inr st' -> isDirectory st' = true ->
  readJSON E w (packageFile (directory args)) = inl e ->
  run args flags w
  = (inl e, w,
     [Completed (Lstat (directory args)) None;
      Completed (PathExists (output flags)) None;
      Completed (Lstat (output flags)) None;
      Completed (ReadJSON (packageFile (directory args))) (Some e)])
  /\ no_stage (trace (run args flags w)).
Proof.
  intros Hst Hisdir Hex Hst' Hisdir' Hm.
  pose proof (run_error args flags w w st _ _ Hst Hisdir
                (output_unreadable args flags w st' e Hex Hst' Hisdir' Hm))
    as Hrun.
  split; [exact Hrun|]. rewrite Hrun.
  repeat (apply no_stage_cons; [reflexivity|]). apply no_stage_nil.
Qed.

Lemma unreadable_manifest_is_fatal_witness :
  readJSON Demo.env Demo.no_manifest "plugin/package.json"
  = inl (Rejected "ENOENT")
  /\ run (E := Demo.env) Demo.the_args (Demo.to "dist") Demo.no_manifest
     = (inl (Rejected "ENOENT"), Demo.no_manifest,
        [Completed (Lstat "plugin") None;
         Completed (PathExists "dist") None;
         Completed (Lstat "dist") None;
         Completed (ReadJSON "plugin/package.json") (Some (Rejected "ENOENT"))])
  /\ no_stage (Demo.steps Demo.the_args (Demo.to "dist") Demo.no_manifest).
Proof.
  split; [reflexivity|].
  exact (unreadable_manifest_is_fatal Demo.env Demo.the_args (Demo.to "dist")
           Demo.no_manifest {| isDirectory := true |} {| isDirectory := true |}
           (Rejected "ENOENT") eq_refl eq_refl eq_refl eq_refl eq_refl eq_refl).
Defined.

(** X3: for a target that does not exist and ends with the separator, the
    manifest is read only after the operator has agreed and [mkdirp] has
    been called.  When the manifest then cannot be read, the run ends
    with the exception of the read, in the world as [mkdirp] left it:
    the creation of the directory is not undone. *)
Theorem creation_is_not_undone
        (E : Env) (args : Args) (flags : Flags) (w : World E)
        (st : Stats) (e : Exn) :
  let target := output flags in
  let w1 := snd (mkdirp E target w) in
  lstat E w (directory args) = inr st -> isDirectory st = true ->
  pathExists E w target = false ->
  Str.slice_last target = "/" ->
  prompt E w (question target) true = inr true ->
  readJSON E w1 (packageFile (directory args)) = inl e ->
  run args flags w
  = (inl e, w1,
     [Completed (Lstat (directory args)) None;
      Completed (PathExists target) None;
      Completed (PathExists target) None;
      Completed (Prompt (question target) true) None;
      Detached (Mkdirp target) (fst (mkdirp E target w));
      Completed (ReadJSON (packageFile (directory args))) (Some e)]).
Proof.
  intros target w1 Hst Hisdir Hex Hsep Hyes Hm.
  pose proof (output_confirmed args flags w) as Hout. cbv zeta in Hout.
  fold target in Hout. rewrite (splitTarget_dir target Hsep) in Hout.
  cbn [fst snd] in Hout. specialize (Hout Hex Hex Hyes). fold w1 in Hout.
  rewrite (finish_unreadable args target w1 e Hm) in Hout.
  exact (run_error args flags w w1 st _ _ Hst Hisdir Hout).
Qed.

Lemma creation_is_not_undone_witness :
  pathExists Demo.env Demo.no_manifest "new/" = false
  /\ run (E := Demo.env) Demo.the_args (Demo.to "new/") Demo.no_manifest
     = (inl (Rejected "ENOENT"), Demo.with_dir "new/" Demo.no_manifest,
        [Completed (Lstat "plugin") None;
         Completed (PathExists "new/") None;
         Completed (PathExists "new/") None;
         Completed (Prompt "Output directory 'new/' doesn't exist. Create it?"
                      true) None;
         Detached (Mkdirp "new/") None;
         Completed (ReadJSON "plugin/package.json") (Some (Rejected "ENOENT"))])
  /\ pathExists Demo.env (Demo.with_dir "new/" Demo.no_manifest) "new/" = true.
Proof.
  split; [reflexivity|]. split; [|reflexivity].
  exact (creation_is_not_undone Demo.env Demo.the_args (Demo.to "new/")
           Demo.no_manifest {| isDirectory := true |} (Rejected "ENOENT")
           eq_refl eq_refl eq_refl eq_refl eq_refl eq_refl).
Defined.

(** X4: a manifest without a version is no failure: the template literal
    prints the missing field, and the derived name is
    [<name>-undefined.tgz]. *)
Theorem versionless_manifest_derives
        (E : Env) (inputDirectory : string) (w : World E) (m : PackageJson)
        (n : string) :
  readJSON E w (packageFile inputDirectory) = inr m ->
  name m = Js.Str n ->
  version m = Js.Undefined ->
  deriveOutputFileName inputDirectory w
  = (inr (n ++ "-undefined.tgz"), w,
     [Completed (ReadJSON (packageFile inputDirectory)) None]).
Proof.
  intros Hm Hname Hversion. rewrite (derive_value inputDirectory w m Hm).
  unfold derivedName. rewrite Hname, Hversion. now destruct n.
Qed.

Lemma versionless_manifest_derives_witness :
  version Demo.unversioned = Js.Undefined
  /\ deriveOutputFileName (E := Demo.env) "plugin"
       (Demo.plugin Demo.unversioned true [])
     = (inr "my-plugin-undefined.tgz", Demo.plugin Demo.unversioned true [],
        [Completed (ReadJSON "plugin/package.json") None]).
Proof.
  split; [reflexivity|].
  exact (versionless_manifest_derives Demo.env "plugin"
           (Demo.plugin Demo.unversioned true []) Demo.unversioned "my-plugin"
           eq_refl eq_refl eq_refl).
Defined.

(** X5: where an archive with a derived name goes.  The derived name is
    joined to the target and the result resolved; when the name holds no
    separator the archive lies directly in the target, under that name.
    A name with a separator in it is not flattened: for a derived name
    [scope/rest] (a scoped package name) the archive is [rest] in the
    directory [scope] under the target, a directory other than the
    target. *)
Theorem derived_archive_placement
        (E : Env) (target : string) (m : PackageJson) :
  Path.isAbsolute (cwd E) = true ->
  let outputFile :=
    Path.resolve (cwd E) [Path.join [target; derivedName m]] in
  let there := Path.resolve (cwd E) [target] in
  (Str.slashfree (derivedName m) = true ->
   Path.dirname outputFile = there
   /\ Path.basename outputFile = derivedName m)
  /\ (forall scope rest,
         derivedName m = scope ++ "/" ++ rest ->
         Path.is_name scope = true -> Str.slashfree scope = true ->
         Path.is_name rest = true -> Str.slashfree rest = true ->
         outputFile = Path.child (Path.child there scope) rest
         /\ Path.dirname outputFile = Path.child there scope
         /\ Path.dirname outputFile <> there
         /\ Path.basename outputFile = rest).
Proof.
  intros Hcwd outputFile there. split.
  - intros Hfree. unfold outputFile, there.
    rewrite (PathFacts.resolve_join_name _ target _ Hcwd
               (derivedName_is_name m) Hfree).
    destruct (PathFacts.resolve_shape (cwd E) [target] Hcwd)
      as (T & HT & _ & ->).
    split.
    + exact (PathFacts.dirname_child T _ HT (derivedName_is_name m) Hfree).
    + exact (PathFacts.basename_child T _ HT (derivedName_is_name m) Hfree).
  - intros scope rest Hname Hscope Hsfree Hrest Hrfree.
    assert (outputFile = Path.child (Path.child there scope) rest) as Hout.
    { unfold outputFile, there. rewrite Hname.
      exact (PathFacts.resolve_join_scoped _ target scope rest Hcwd
               Hscope Hsfree Hrest Hrfree). }
    rewrite Hout. unfold there.
    destruct (PathFacts.resolve_shape (cwd E) [target] Hcwd)
      as (T & HT & _ & ->).
    destruct (PathFacts.scoped_child T scope rest HT Hscope Hrest Hrfree)
      as [Hdir Hbase].
    split; [reflexivity|]. split; [exact Hdir|]. split; [|exact Hbase].
    rewrite Hdir.
    exact (PathFacts.child_differs _ scope (PathFacts.name_not_empty _ Hscope)).
Qed.

Lemma derived_archive_placement_witness :
  (Path.dirname "/home/dev/dist/my-plugin-1.2.3.tgz" = "/home/dev/dist"
   /\ Path.basename "/home/dev/dist/my-plugin-1.2.3.tgz"
      = derivedName Demo.my_plugin)
  /\ derivedName Demo.scoped = "@acme" ++ "/" ++ "my-plugin-1.2.3.tgz"
  /\ Path.resolve (cwd Demo.env) [Path.join ["dist"; derivedName Demo.scoped]]
     = "/home/dev/dist/@acme/my-plugin-1.2.3.tgz"
  /\ Path.dirname "/home/dev/dist/@acme/my-plugin-1.2.3.tgz"
     = "/home/dev/dist/@acme".
Proof.
  split; [|split; [reflexivity|]].
  - exact (proj1 (derived_archive_placement Demo.env "dist" Demo.my_plugin
                    eq_refl) eq_refl).
  - destruct (proj2 (derived_archive_placement Demo.env "dist" Demo.scoped
                       eq_refl) "@acme" "my-plugin-1.2.3.tgz"
                eq_refl eq_refl eq_refl eq_refl eq_refl)
      as (Hout & Hdir & _ & _).
    split; [exact Hout|exact Hdir].
Defined.

(** X6: a main file declared in the manifest is handed to the compiler as
    it is written, also when it is the empty string ([??] gives way to
    the default only for an absent or null field), and no index file is
    looked for. *)
Theorem declared_main_is_the_entry
        (E : Env) (d o : string) (w w1 : World E) (m : PackageJson)
        (s : string) :
  yarn_install E d w = (None, w1) ->
  readJSON E w1 (packageFile d) = inr m ->
  main m = Js.Str s ->
  pipeline d o w
  = prepend [Completed (Log (bundling d o)) None;
             Completed (ActionStart "Installing dependencies") None;
             Completed (YarnInstall d) None;
             Completed (ActionStop None) None;
             Completed (ActionStart "Reading package.json") None;
             Completed (ReadJSON (packageFile d)) None;
             Completed (ActionStop (Some (manifestRead s m))) None]
      ((compile d (Js.Str s) (Path.resolve (cwd E) [d; chosenBundleMain m]) ;;;
        pack d o ;;;
        say (Log (bundled d o))) w1).
Proof.
  intros Hin Hm Hmain.
  rewrite (pipeline_installed d o w w1 Hin).
  erewrite bind_value by exact (manifest_declared d w1 m s Hm Hmain).
  now rewrite prepend_prepend.
Qed.

Lemma declared_main_is_the_entry_witness :
  main Demo.with_main = Js.Str "src/main.tsx"
  /\ In (Completed (RunBuild "/home/dev/plugin" (Js.Str "src/main.tsx")
                      "/home/dev/plugin/dist/index.js") None)
        (trace (pipeline (E := Demo.env) "/home/dev/plugin" "/home/dev/a.tgz"
                  (Demo.plugin Demo.with_main true []))).
Proof.
  split; [reflexivity|].
  rewrite (declared_main_is_the_entry Demo.env "/home/dev/plugin"
             "/home/dev/a.tgz" (Demo.plugin Demo.with_main true [])
             (Demo.plugin Demo.with_main true []) Demo.with_main
             "src/main.tsx" eq_refl eq_refl eq_refl).
  vm_compute. tauto.
Defined.

(** X7: in every run, each stage (installation, compilation, packing)
    works on the input directory made absolute. *)
Theorem stages_work_on_input
        (E : Env) (args : Args) (flags : Flags) (w : World E)
        (pre post : list Step) (s : Step) :
  trace (run args flags w) = (pre ++ s :: post)%list ->
  is_stage (call_of s) = true ->
  stage_dir (call_of s) = Some (Path.resolve (cwd E) [directory args]).
Proof.
  intros Ht Hs.
  destruct (run_staged args flags w pre post s Ht Hs)
    as (out & p1 & _ & _ & Hst).
  destruct s as [c r|c r]; [|contradiction].
  destruct c; try discriminate Hs; cbn in Hst |- *;
    destruct Hst as [-> _]; reflexivity.
Qed.

Lemma stages_work_on_input_witness :
  Demo.steps Demo.the_args (Demo.to "./dist/") Demo.ready
  = (firstn 6 (Demo.steps Demo.the_args (Demo.to "./dist/") Demo.ready)
       ++ Completed (YarnInstall "/home/dev/plugin") None
       :: skipn 7 (Demo.steps Demo.the_args (Demo.to "./dist/") Demo.ready))%list
  /\ stage_dir (YarnInstall "/home/dev/plugin")
     = Some (Path.resolve (cwd Demo.env) ["plugin"]).
Proof.
  assert (Demo.steps Demo.the_args (Demo.to "./dist/") Demo.ready
          = (firstn 6 (Demo.steps Demo.the_args (Demo.to "./dist/") Demo.ready)
               ++ Completed (YarnInstall "/home/dev/plugin") None
               :: skipn 7 (Demo.steps Demo.the_args (Demo.to "./dist/")
                             Demo.ready))%list) as Ht
    by (vm_compute; reflexivity).
  split; [exact Ht|].
  exact (stages_work_on_input Demo.env Demo.the_args (Demo.to "./dist/")
           Demo.ready _ _ _ Ht eq_refl).
Defined.

(** X8: in every run no stage is started twice: before a stage, no step
    of the same stage has been made. *)
Theorem no_stage_twice
        (E : Env) (args : Args) (flags : Flags) (w : World E)
        (pre post : list Step) (s : Step) :
  trace (run args flags w) = (pre ++ s :: post)%list ->
  is_stage (call_of s) = true ->
  fresh (call_of s) pre = true
  /\ forall x, In x pre -> same_stage (call_of x) (call_of s) = false.
Proof.
  intros Ht Hs.
  destruct (run_staged args flags w pre post s Ht Hs)
    as (out & p1 & _ & -> & Hst).
  assert (fresh (call_of s)
            (Completed (Lstat (directory args)) None
               :: trace (resolveOutput args flags w) ++ p1)%list = true) as Hf.
  { change (fresh (call_of s)
              ((Completed (Lstat (directory args)) None
                  :: trace (resolveOutput args flags w)) ++ p1)%list = true).
    rewrite fresh_app, (fresh_prelude _ _ (prelude_calls args flags w)).
    rewrite <- fresh_rev. cbn [andb].
    destruct s as [c r|c r]; [|contradiction].
    destruct c; try discriminate Hs; cbn in Hst |- *; tauto. }
  split; [exact Hf|]. intros x Hx.
  unfold fresh in Hf. rewrite forallb_forall in Hf.
  now apply negb_true_iff, Hf.
Qed.

Lemma no_stage_twice_witness :
  Demo.steps Demo.the_args (Demo.to "./dist/") Demo.ready
  = (firstn 14 (Demo.steps Demo.the_args (Demo.to "./dist/") Demo.ready)
       ++ Completed (RunBuild "/home/dev/plugin" (Js.Str "index.tsx")
                       "/home/dev/plugin/dist/index.js") None
       :: skipn 15 (Demo.steps Demo.the_args (Demo.to "./dist/") Demo.ready))%list
  /\ fresh (RunBuild "/home/dev/plugin" (Js.Str "index.tsx")
              "/home/dev/plugin/dist/index.js")
       (firstn 14 (Demo.steps Demo.the_args (Demo.to "./dist/") Demo.ready))
     = true.
Proof.
  assert (Demo.steps Demo.the_args (Demo.to "./dist/") Demo.ready
          = (firstn 14 (Demo.steps Demo.the_args (Demo.to "./dist/") Demo.ready)
               ++ Completed (RunBuild "/home/dev/plugin" (Js.Str "index.tsx")
                               "/home/dev/plugin/dist/index.js") None
               :: skipn 15 (Demo.steps Demo.the_args (Demo.to "./dist/")
                              Demo.ready))%list) as Ht
    by (vm_compute; reflexivity).
  split; [exact Ht|].
  exact (proj1 (no_stage_twice Demo.env Demo.the_args (Demo.to "./dist/")
                  Demo.ready _ _ _ Ht eq_refl)).
Defined.

(** X9: in every run, packing comes after a successful compilation of
    the same directory, and the archive it is told to write is the
    value of [output] made absolute, [output] being settled before
    anything is installed. *)
Theorem packing_follows_compilation
        (E : Env) (args : Args) (flags : Flags) (w : World E)
        (pre post : list Step) (d o : string) (r : option Exn) :
  trace (run args flags w) = (pre ++ Completed (YarnPack d o) r :: post)%list ->
  (exists entry out, In (Completed (RunBuild d entry out) None) pre)
  /\ exists output,
      outcome (resolveOutput args flags w) = inr output
      /\ o = Path.resolve (cwd E) [output].
Proof.
  intros Ht.
  destruct (run_staged args flags w pre post _ Ht eq_refl)
    as (out & p1 & Hout & -> & Hst).
  cbn in Hst. destruct Hst as (-> & -> & _ & entry & b & Hin). split.
  - exists entry, b. right. apply in_or_app. right. now apply in_rev.
  - exists out. split; [exact Hout|reflexivity].
Qed.

Lemma packing_follows_compilation_witness :
  Demo.steps Demo.the_args (Demo.to "./dist/") Demo.ready
  = (firstn 17 (Demo.steps Demo.the_args (Demo.to "./dist/") Demo.ready)
       ++ Completed (YarnPack "/home/dev/plugin"
                       "/home/dev/dist/my-plugin-1.2.3.tgz") None
       :: skipn 18 (Demo.steps Demo.the_args (Demo.to "./dist/") Demo.ready))%list
  /\ exists entry out,
      In (Completed (RunBuild "/home/dev/plugin" entry out) None)
         (firstn 17 (Demo.steps Demo.the_args (Demo.to "./dist/") Demo.ready)).
Proof.
  assert (Demo.steps Demo.the_args (Demo.to "./dist/") Demo.ready
          = (firstn 17 (Demo.steps Demo.the_args (Demo.to "./dist/") Demo.ready)
               ++ Completed (YarnPack "/home/dev/plugin"
                               "/home/dev/dist/my-plugin-1.2.3.tgz") None
               :: skipn 18 (Demo.steps Demo.the_args (Demo.to "./dist/")
                              Demo.ready))%list) as Ht
    by (vm_compute; reflexivity).
  split; [exact Ht|].
  exact (proj1 (packing_follows_compilation Demo.env Demo.the_args
                  (Demo.to "./dist/") Demo.ready _ _ _ _ _ Ht)).
Defined.

(** X10: a run succeeds exactly when the packing call was made and
    completed without failure: nothing that can fail comes after it,
    and there is no way to success around it. *)
Theorem success_is_a_packed_archive
        (E : Env) (args : Args) (flags : Flags) (w : World E) :
  outcome (run args flags w) = inr tt
  <-> exists d o, In (Completed (YarnPack d o) None) (trace (run args flags w)).
Proof.
  pose proof (run_succeeded args flags w) as Hs. split.
  - intros Hok. unfold succeeded in Hs. rewrite Hok in Hs.
    symmetry in Hs. apply existsb_exists in Hs as (s & Hin & Hp).
    destruct s as [[] []|]; try discriminate Hp. eauto.
  - intros (d & o & Hin).
    assert (existsb pack_ok (trace (run args flags w)) = true) as Hp
      by (apply existsb_exists; eexists; split; [exact Hin|reflexivity]).
    rewrite Hp in Hs. unfold succeeded in Hs.
    destruct (outcome (run args flags w)) as [e|[]]; [discriminate|reflexivity].
Qed.

Lemma success_is_a_packed_archive_witness :
  exists d o,
    In (Completed (YarnPack d o) None)
       (Demo.steps Demo.the_args (Demo.to "./dist/") Demo.ready).
Proof.
  exact (proj1 (success_is_a_packed_archive Demo.env Demo.the_args
                  (Demo.to "./dist/") Demo.ready) eq_refl).
Defined.



(** X12: in every run, the only call whose result is not awaited is
    [mkdirp], and [mkdirp] is never awaited; it is called for a directory
    that is missing in the world the run starts in, right after the
    question about that very directory, to which the operator has
    answered yes. *)
Theorem mkdirp_is_detached_and_on_request
        (E : Env) (args : Args) (flags : Flags) (w : World E)
        (pre post : list Step) :
  (forall c r,
      trace (run args flags w) = (pre ++ Detached c r :: post)%list ->
      exists dir pre',
        c = Mkdirp dir
        /\ pre = (pre' ++ [Completed (Prompt (question dir) true) None])%list
        /\ pathExists E w dir = false
        /\ prompt E w (question dir) true = inr true)
  /\ (forall c r,
         trace (run args flags w) = (pre ++ Completed c r :: post)%list ->
         forall dir, c <> Mkdirp dir).
Proof.
  pose proof (run_on_request args flags w) as Hrun. split.
  - intros c r Ht.
    pose proof (each_at _ _ _ _ _ _ Hrun Ht) as Hs.
    rewrite app_nil_r in Hs. destruct c; try contradiction.
    destruct Hs as ([rest Hrest] & Hmissing & Hyes).
    exists dir, (rev rest). split; [reflexivity|].
    split; [|split; assumption].
    rewrite <- (rev_involutive pre), Hrest. reflexivity.
  - intros c r Ht dir ->.
    exact (each_at _ _ _ _ _ _ Hrun Ht).
Qed.

Lemma mkdirp_is_detached_and_on_request_witness :
  Demo.steps Demo.the_args (Demo.to "new/x/y.tgz") Demo.no_mkdirp
  = (firstn 4 (Demo.steps Demo.the_args (Demo.to "new/x/y.tgz") Demo.no_mkdirp)
       ++ Detached (Mkdirp "new/x") (Some (Rejected "mkdirp"))
       :: skipn 5 (Demo.steps Demo.the_args (Demo.to "new/x/y.tgz")
                     Demo.no_mkdirp))%list
  /\ exists dir pre',
      Mkdirp "new/x" = Mkdirp dir
      /\ firstn 4 (Demo.steps Demo.the_args (Demo.to "new/x/y.tgz")
                     Demo.no_mkdirp)
         = (pre' ++ [Completed (Prompt (question dir) true) None])%list
      /\ pathExists Demo.env Demo.no_mkdirp dir = false
      /\ prompt Demo.env Demo.no_mkdirp (question dir) true = inr true.
Proof.
  assert (Demo.steps Demo.the_args (Demo.to "new/x/y.tgz") Demo.no_mkdirp
          = (firstn 4 (Demo.steps Demo.the_args (Demo.to "new/x/y.tgz")
                         Demo.no_mkdirp)
               ++ Detached (Mkdirp "new/x") (Some (Rejected "mkdirp"))
               :: skipn 5 (Demo.steps Demo.the_args (Demo.to "new/x/y.tgz")
                             Demo.no_mkdirp))%list) as Ht
    by (vm_compute; reflexivity).
  split; [exact Ht|].
  exact (proj1 (mkdirp_is_detached_and_on_request Demo.env Demo.the_args
                  (Demo.to "new/x/y.tgz") Demo.no_mkdirp _ _) _ _ Ht).
Defined.

(** X13: in every run, the operator is asked only whether a directory
    should be created, right after that directory was looked for, and
    with yes as the default answer. *)
Theorem operator_is_asked_about_a_missing_directory
        (E : Env) (args : Args) (flags : Flags) (w : World E)
        (pre post : list Step) (q : string) (dflt : bool) (r : option Exn) :
  trace (run args flags w) = (pre ++ Completed (Prompt q dflt) r :: post)%list ->
  dflt = true
  /\ exists dir pre',
      q = question dir
      /\ pre = (pre' ++ [Completed (PathExists dir) None])%list.
Proof.
  intros Ht.
  pose proof (each_at _ _ _ _ _ _ (run_on_request args flags w) Ht) as Hs.
  rewrite app_nil_r in Hs. destruct Hs as (Hd & dir & rest & Hq & Hrest).
  split; [exact Hd|]. exists dir, (rev rest). split; [exact Hq|].
  rewrite <- (rev_involutive pre), Hrest. reflexivity.
Qed.

Lemma operator_is_asked_about_a_missing_directory_witness :
  Demo.steps Demo.the_args (Demo.to "new/x/y.tgz") Demo.refusing
  = (firstn 3 (Demo.steps Demo.the_args (Demo.to "new/x/y.tgz") Demo.refusing)
       ++ Completed (Prompt "Output directory 'new/x' doesn't exist. Create it?"
                       true) None
       :: skipn 4 (Demo.steps Demo.the_args (Demo.to "new/x/y.tgz")
                     Demo.refusing))%list
  /\ exists dir pre',
      "Output directory 'new/x' doesn't exist. Create it?" = question dir
      /\ firstn 3 (Demo.steps Demo.the_args (Demo.to "new/x/y.tgz")
                     Demo.refusing)
         = (pre' ++ [Completed (PathExists dir) None])%list.
Proof.
  assert (Demo.steps Demo.the_args (Demo.to "new/x/y.tgz") Demo.refusing
          = (firstn 3 (Demo.steps Demo.the_args (Demo.to "new/x/y.tgz")
                         Demo.refusing)
               ++ Completed (Prompt "Output directory 'new/x' doesn't exist. Create it?"
                               true) None
               :: skipn 4 (Demo.steps Demo.the_args (Demo.to "new/x/y.tgz")
                             Demo.refusing))%list) as Ht
    by (vm_compute; reflexivity).
  split; [exact Ht|].
  exact (proj2 (operator_is_asked_about_a_missing_directory Demo.env
                  Demo.the_args (Demo.to "new/x/y.tgz") Demo.refusing
                  _ _ _ _ _ Ht)).
Defined.

(** X14: a target that names a file in a directory that does not exist:
    once the operator has agreed to the creation of the directory, the
    archive goes to the target as given, made absolute; the manifest is
    not read for a name. *)
Theorem archive_at_new_file_in_new_directory
        (E : Env) (args : Args) (flags : Flags) (w : World E) (st : Stats) :
  let target := output flags in
  let dir := Path.dirname target in
  Path.isAbsolute (cwd E) = true ->
  lstat E w (directory args) = inr st -> isDirectory st = true ->
  pathExists E w target = false ->
  Str.slice_last target <> "/" ->
  pathExists E w dir = false ->
  prompt E w (question dir) true = inr true ->
  run args flags w
  = prepend [Completed (Lstat (directory args)) None;
             Completed (PathExists target) None;
             Completed (PathExists dir) None;
             Completed (Prompt (question dir) true) None;
             Detached (Mkdirp dir) (fst (mkdirp E dir w))]
      (pipeline (Path.resolve (cwd E) [directory args])
         (Path.resolve (cwd E) [target]) (snd (mkdirp E dir w))).
Proof.
  intros target dir Hcwd Hst Hisdir Hex Hsep Hdir Hyes.
  pose proof (output_confirmed args flags w) as Hout. cbv zeta in Hout.
  fold target in Hout. rewrite (splitTarget_file target Hsep) in Hout.
  cbn [fst snd] in Hout. fold dir in Hout. specialize (Hout Hex Hdir Hyes).
  rewrite finish_named in Hout.
  cbn [prepend outcome world_of trace fst snd app] in Hout.
  rewrite (run_value args flags w _ st _ _ Hst Hisdir Hout).
  unfold dir. rewrite PathFacts.resolve_join_dirname_basename;
    [reflexivity|exact Hcwd|].
  unfold Path.trailingSeparator. now apply String.eqb_neq.
Qed.

Lemma archive_at_new_file_in_new_directory_witness :
  pathExists Demo.env Demo.ready "new/x" = false
  /\ run (E := Demo.env) Demo.the_args (Demo.to "new/x/y.tgz") Demo.ready
     = prepend [Completed (Lstat "plugin") None;
                Completed (PathExists "new/x/y.tgz") None;
                Completed (PathExists "new/x") None;
                Completed (Prompt "Output directory 'new/x' doesn't exist. Create it?"
                             true) None;
                Detached (Mkdirp "new/x") None]
         (pipeline (E := Demo.env) "/home/dev/plugin" "/home/dev/new/x/y.tgz"
            (Demo.with_dir "new/x" Demo.ready)).
Proof.
  split; [reflexivity|].
  refine (archive_at_new_file_in_new_directory Demo.env Demo.the_args
            (Demo.to "new/x/y.tgz") Demo.ready {| isDirectory := true |}
            eq_refl eq_refl eq_refl eq_refl _ eq_refl eq_refl).
  discriminate.
Defined.

(** X15: the manifest is read under two paths: for the name of the
    archive under the input directory as given (line 20, called at lines
    56 and 89), for the entry under the input directory made absolute
    (line 105).  Under an absolute working directory the two paths name
    the same file: the first resolves to the second. *)
Theorem manifest_is_one_file (E : Env) (args : Args) :
  Path.isAbsolute (cwd E) = true ->
  Path.resolve (cwd E) [packageFile (directory args)]
  = packageFile (Path.resolve (cwd E) [directory args]).
Proof.
  intros Hcwd. unfold packageFile. symmetry.
  now apply PathFacts.join_resolved.
Qed.

Lemma manifest_is_one_file_witness :
  Path.resolve (cwd Demo.env) [packageFile "plugin"]
  = packageFile (Path.resolve (cwd Demo.env) ["plugin"]).
Proof. exact (manifest_is_one_file Demo.env Demo.the_args eq_refl). Defined.

(** X16: a call without [--output] puts the archive into the working
    directory: when the default target [.] exists and is a directory,
    and the derived name holds no separator, the archive is the child of
    the working directory of that name. *)
Theorem default_output_is_the_working_directory
        (E : Env) (args : Args) (w : World E) (st st' : Stats)
        (m : PackageJson) :
  Path.isAbsolute (cwd E) = true ->
  lstat E w (directory args) = inr st -> isDirectory st = true ->
  pathExists E w "." = true ->
  lstat E w "." = inr st' -> isDirectory st' = true ->
  readJSON E w (packageFile (directory args)) = inr m ->
  Str.slashfree (derivedName m) = true ->
  run args defaultFlags w
  = prepend [Completed (Lstat (directory args)) None;
             Completed (PathExists ".") None;
             Completed (Lstat ".") None;
             Completed (ReadJSON (packageFile (directory args))) None]
      (pipeline (Path.resolve (cwd E) [directory args])
         (Path.child (Path.resolve (cwd E) []) (derivedName m)) w).
Proof.
  intros Hcwd Hst Hisdir Hex Hst' Hisdir' Hm Hfree.
  rewrite (run_value args defaultFlags w w st _ _ Hst Hisdir
             (output_of_directory args defaultFlags w st' m Hex Hst' Hisdir' Hm)).
  rewrite (PathFacts.resolve_idempotent _ _ Hcwd). cbn [output defaultFlags].
  rewrite (PathFacts.resolve_join_name _ "." _ Hcwd (derivedName_is_name m) Hfree).
  now rewrite (PathFacts.resolve_dot _ Hcwd).
Qed.

Lemma default_output_is_the_working_directory_witness :
  run (E := Demo.env) Demo.the_args defaultFlags Demo.ready
  = prepend [Completed (Lstat "plugin") None;
             Completed (PathExists ".") None;
             Completed (Lstat ".") None;
             Completed (ReadJSON "plugin/package.json") None]
      (pipeline (E := Demo.env) "/home/dev/plugin"
         "/home/dev/my-plugin-1.2.3.tgz" Demo.ready).
Proof.
  exact (default_output_is_the_working_directory Demo.env Demo.the_args
           Demo.ready {| isDirectory := true |} {| isDirectory := true |}
           Demo.my_plugin eq_refl eq_refl eq_refl eq_refl eq_refl eq_refl
           eq_refl eq_refl).
Defined.

(** X17: what a run logs.  The completion message, for the input
    directory and the archive made absolute, is the last step of a run
    exactly when the run succeeds; and the announcement of the same two
    paths is logged before any stage is started. *)
Theorem completion_is_logged_last
        (E : Env) (args : Args) (flags : Flags) (w : World E) :
  let d := Path.resolve (cwd E) [directory args] in
  (outcome (run args flags w) = inr tt
   <-> exists out pre,
       outcome (resolveOutput args flags w) = inr out
       /\ trace (run args flags w)
          = (pre ++ [Completed (Log (bundled d (Path.resolve (cwd E) [out])))
                       None])%list)
  /\ (forall pre post s,
         trace (run args flags w) = (pre ++ s :: post)%list ->
         is_stage (call_of s) = true ->
         exists out,
           outcome (resolveOutput args flags w) = inr out
           /\ In (Completed (Log (bundling d (Path.resolve (cwd E) [out]))) None)
                pre).
Proof.
  intros d. split.
  - destruct (run_split args flags w)
      as [(e & _ & Hrun) | [(st & _ & _ & Hrun) | [(e & He & Hrun) | (out & Hout & Hrun)]]];
      rewrite Hrun; cbn [outcome trace fst snd prepend].
    + split; [discriminate|]. intros (out & pre & _ & Ht).
      apply (ends_with_inv _ _ (Completed (Log "") None)) in Ht.
      discriminate Ht.
    + split; [discriminate|]. intros (out & pre & _ & Ht).
      apply (ends_with_inv _ _ (Completed (Log "") None)) in Ht.
      discriminate Ht.
    + split; [discriminate|]. intros (out & pre & Hout & _).
      unfold outcome in He, Hout. congruence.
    + destruct (pipeline_logged d (Path.resolve (cwd E) [out])
                  (world_of (resolveOutput args flags w)))
        as [[t Hfirst] Hlast].
      fold d. unfold succeeded in Hlast. split.
      * intros Hok. rewrite Hok in Hlast.
        destruct (proj1 Hlast eq_refl) as [pre Hpre].
        exists out, ((Completed (Lstat (directory args)) None
                        :: trace (resolveOutput args flags w)) ++ pre)%list.
        split; [exact Hout|]. rewrite Hpre. now rewrite app_assoc.
      * intros (out' & pre & Hout' & Ht).
        assert (out' = out) as -> by (unfold outcome in Hout, Hout'; congruence).
        apply (ends_with_inv _ _ (Completed (Log "") None)) in Ht.
        assert (trace (pipeline d (Path.resolve (cwd E) [out])
                         (world_of (resolveOutput args flags w))) <> []) as Hne
          by (rewrite Hfirst; discriminate).
        rewrite (last_app_r _ _ _ Hne) in Ht.
        destruct (ends_with _ _ _ Hne Ht) as [pre' Hpre'].
        pose proof (proj2 Hlast (ex_intro _ pre' Hpre')) as Hs.
        destruct (outcome (pipeline d (Path.resolve (cwd E) [out])
                             (world_of (resolveOutput args flags w))))
          as [e|[]]; [discriminate|reflexivity].
  - intros pre post s Ht Hs.
    destruct (stage_in_pipeline args flags w pre post s Ht Hs)
      as (out & p1 & Hout & -> & Hp).
    exists out. split; [exact Hout|].
    destruct (pipeline_logged d (Path.resolve (cwd E) [out])
                (world_of (resolveOutput args flags w)))
      as [[t Hfirst] _].
    fold d in Hp. rewrite Hfirst in Hp. right. apply in_or_app. right.
    destruct p1 as [|x p1]; cbn [app] in Hp; injection Hp as Hx _.
    + rewrite <- Hx in Hs. discriminate Hs.
    + left. now symmetry.
Qed.

Lemma completion_is_logged_last_witness :
  exists out pre,
    outcome (resolveOutput (E := Demo.env) Demo.the_args (Demo.to "./dist/")
               Demo.ready) = inr out
    /\ Demo.steps Demo.the_args (Demo.to "./dist/") Demo.ready
       = (pre ++ [Completed (Log (bundled "/home/dev/plugin"
                                    (Path.resolve (cwd Demo.env) [out])))
                    None])%list.
Proof.
  exact (proj1 (proj1 (completion_is_logged_last Demo.env Demo.the_args
                         (Demo.to "./dist/") Demo.ready)) eq_refl).
Defined.
